(** * Open Image Denoise core: images over buffers and the C API boundary

    A shallow embedding of [core/image.cpp] and [core/api.cpp].

    - [size_t] values are integers in [0, 2^64) and every [size_t] sum and
      product is written with its wrap-around ([size_add], [size_mul]).
    - Pointers and handles are addresses ([Z]); [nullptr] is [0].
    - Objects live in a store keyed by address ([World]); an entry point is a
      computation over the store that returns a value or throws ([M]).
    - A C++ exception is a value of [Thrown]; [OIDN_TRY]/[OIDN_CATCH] is the
      combinator [OIDN_TRY_CATCH]. *)

From Stdlib Require Import ZArith Lia Bool.
From stdpp Require Import base option strings list gmap infinite.

Local Open Scope Z_scope.

(** ** Machine integers and pointers *)

Definition SIZE_WIDTH : Z := 64.
Definition SIZE_MOD : Z := 2 ^ SIZE_WIDTH.

(** [std::numeric_limits<int>::max()] *)
Definition INT_MAX : Z := 2147483647.

Definition is_size_t (x : Z) : Prop := 0 <= x < SIZE_MOD.

Definition size_wrap (x : Z) : Z := x mod SIZE_MOD.
Definition size_add (a b : Z) : Z := size_wrap (a + b).
Definition size_mul (a b : Z) : Z := size_wrap (a * b).

(** The conversion [(int)x] of a [size_t]: the low 32 bits, read as signed. *)
Definition int_of_size_t (x : Z) : Z :=
  let r := x mod 2 ^ 32 in
  if r <? 2 ^ 31 then r else r - 2 ^ 32.

(** The implicit conversion of an [int] argument to a [size_t] parameter. *)
Definition size_t_of_int (i : Z) : Z := size_wrap i.

Definition nullptr : Z := 0.
Definition is_null (p : Z) : bool := p =? nullptr.

(** [(char* )p + n] *)
Definition ptr_add (p n : Z) : Z := size_wrap (p + n).

(** ** Enumerations *)

Module Error.
Inductive t :=
| None | Unknown | InvalidArgument | InvalidOperation
| OutOfMemory | UnsupportedHardware | Cancelled.

(** The stable integer values of the C enumeration: [None] is zero. *)
Definition code (e : t) : Z :=
  match e with
  | None => 0 | Unknown => 1 | InvalidArgument => 2 | InvalidOperation => 3
  | OutOfMemory => 4 | UnsupportedHardware => 5 | Cancelled => 6
  end.

#[global] Instance eq_dec : EqDecision t.
Proof. solve_decision. Defined.
End Error.

Module Format.
Inductive t :=
| Undefined
| Float | Float2 | Float3 | Float4
| Half | Half2 | Half3 | Half4.

#[global] Instance eq_dec : EqDecision t.
Proof. solve_decision. Defined.
End Format.

Module DataType.
Inductive t := Float32 | Float16 | UInt8 | Undefined.
End DataType.

Module Storage.
Inductive t := Undefined | Host | Device | Managed.
End Storage.

(** ** Exceptions *)

Inductive dnnl_status := dnnl_out_of_memory | dnnl_other_status.

(** What a [throw] inside an entry point can raise, by the [catch] clause
    that receives it. *)
Inductive Thrown :=
| Exception (code : Error.t) (what : string)      (* oidn::Exception *)
| bad_alloc                                       (* std::bad_alloc *)
| dnnl_error (status : dnnl_status) (message : string)  (* dnnl::error *)
| std_exception (what : string)  (* std::logic_error, std::range_error, ... *)
| foreign_throw.                 (* not derived from std::exception *)

(** A constructor or helper that returns or throws, without touching the
    store. *)
Definition Exc (A : Type) : Type := Thrown + A.

(** ** Image descriptors ([core/image.cpp], [ImageDesc]) *)

(** Modelled from the spec: [getDataType], [getC] and [getFormatSize] are
    declared outside [core/image.cpp].  The format encodes a channel count
    and a data type; the size of a pixel is the channel count times the size
    of the data type. *)
Definition getDataType (f : Format.t) : DataType.t :=
  match f with
  | Format.Undefined => DataType.Undefined
  | Format.Float | Format.Float2 | Format.Float3 | Format.Float4 => DataType.Float32
  | Format.Half | Format.Half2 | Format.Half3 | Format.Half4 => DataType.Float16
  end.

(** Modelled from the spec: the size in bytes of a value of each data
    type. *)
Definition getDataTypeSize (d : DataType.t) : Z :=
  match d with
  | DataType.Float32 => 4
  | DataType.Float16 => 2
  | DataType.UInt8 => 1
  | DataType.Undefined => 0
  end.

(** Modelled from the spec: [getC], the channel count the format encodes. *)
Definition getC (f : Format.t) : Z :=
  match f with
  | Format.Undefined => 0
  | Format.Float | Format.Half => 1
  | Format.Float2 | Format.Half2 => 2
  | Format.Float3 | Format.Half3 => 3
  | Format.Float4 | Format.Half4 => 4
  end.

(** Modelled from the spec: [getFormatSize], the size in bytes of a pixel. *)
Definition getFormatSize (f : Format.t) : Z :=
  getC f * getDataTypeSize (getDataType f).

Record ImageDesc := mkImageDesc {
  width : Z;
  height : Z;
  format : Format.t;
  wByteStride : Z;   (* pixel stride in bytes *)
  hByteStride : Z    (* row stride in bytes *)
}.

(** Modelled from the spec: [ImageDesc::getByteSize] is declared in
    [image.h]; the byte size of an image is [height * hByteStride]. *)
Definition getByteSize (d : ImageDesc) : Z :=
  size_mul (height d) (hByteStride d).

(** ** Images ([core/image.cpp], [Image]) *)

(** An image is a descriptor, the cached pointer [ptr], and the [Ref<Buffer>]
    of its [Memory] base: the address of the backing buffer, or nothing for
    an image over a raw pointer. *)
Record Image := mkImage {
  desc : ImageDesc;
  ptr : Z;
  buffer : option Z
}.

(** Modelled from the spec: [Image::begin] and [Image::end] are declared in
    [image.h]; the byte interval of an image starts at its pointer and spans
    its byte size. *)
Definition Image_begin (i : Image) : Z := ptr i.

(** Modelled from the spec: [Image::end], one past the last byte of the
    interval. *)
Definition Image_end (i : Image) : Z := ptr_add (ptr i) (getByteSize (desc i)).

(** [bool Image::overlaps(const Image& other) const] *)
Definition overlaps (i other : Image) : bool :=
  if is_null (ptr i) || is_null (ptr other) then false
  else if negb (bool_decide (buffer i = buffer other)) then false
  else (Image_begin i <? Image_end other) && (Image_begin other <? Image_end i).

(** ** Objects and the store *)

(** A SYCL event: the default-constructed empty event, or one returned by a
    submission to a queue. *)
Inductive sycl_event := default_event | queue_event (id : Z).

Record DeviceObj := mkDevice {
  dev_refCount : Z;
  dev_committed : bool;
  dev_error : Error.t * string;       (* the sticky error slot *)
  dev_externalMemoryTypes : Z;        (* bit mask of advertised types *)
  dev_isSYCL : bool;                  (* dynamic_cast<SYCLDevice*> succeeds *)
  dev_depEvents : list sycl_event;
  dev_doneEvents : list sycl_event
}.

(** Where an imported buffer's memory comes from. *)
Inductive ExternalSource :=
| FromFD (fdType : Z) (fd : Z)
| FromWin32 (handleType : Z) (handle name : Z).

Record BufferObj := mkBuffer {
  buf_refCount : Z;
  buf_device : Z;
  buf_byteSize : Z;
  buf_data : Z;
  buf_storage : Storage.t;
  buf_external : option ExternalSource
}.

Record FilterObj := mkFilter {
  flt_refCount : Z;
  flt_device : Z;
  flt_type : string;
  flt_images : gmap string Image;
  flt_dirty : bool;
  (* the completion events an execution of the filter leaves pending on the
     engine's queue *)
  flt_pending : list sycl_event
}.

Inductive Object :=
| ODevice (d : DeviceObj)
| OBuffer (b : BufferObj)
| OFilter (f : FilterObj).

(** The calls whose order the API promises, in program order. [EvSetError]
    carries [nullptr] when the error has no device. *)
Inductive Event :=
| EvLock (device : Z)
| EvUnlock (device : Z)
| EvWait (device : Z)
| EvDestroy (obj : Z)
| EvSetError (device : Z) (code : Error.t) (message : string).

Record World := mkWorld {
  heap : gmap Z Object;
  brk : Z;                          (* first free address of buffer memory *)
  threadError : Error.t * string;   (* the slot used when there is no device *)
  trace : list Event
}.

Definition set_heap (f : gmap Z Object -> gmap Z Object) (w : World) : World :=
  mkWorld (f (heap w)) (brk w) (threadError w) (trace w).

Definition set_brk (b : Z) (w : World) : World :=
  mkWorld (heap w) b (threadError w) (trace w).

Definition set_threadError (e : Error.t * string) (w : World) : World :=
  mkWorld (heap w) (brk w) e (trace w).

Definition emit (ev : Event) (w : World) : World :=
  mkWorld (heap w) (brk w) (threadError w) (trace w ++ [ev]).

(** ** Computations over the store *)

(** [Undefined] stands for undefined behaviour: a non-null handle that does
    not point to a live object of the type it is cast to. *)
Inductive Outcome (A : Type) :=
| Return (a : A)
| Throw (e : Thrown)
| Undefined.
Arguments Return {A} a.
Arguments Throw {A} e.
Arguments Undefined {A}.

Definition M (A : Type) : Type := World -> World * Outcome A.

Definition ret {A} (a : A) : M A := fun w => (w, Return a).

Definition bind {A B} (c : M A) (k : A -> M B) : M B :=
  fun w =>
    match c w with
    | (w', Return a) => k a w'
    | (w', Throw e) => (w', Throw e)
    | (w', Undefined) => (w', Undefined)
    end.

Definition throw {A} (e : Thrown) : M A := fun w => (w, Throw e).
Definition modify (f : World -> World) : M unit := fun w => (f w, Return tt).
Definition lift {A} (r : Exc A) : M A :=
  match r with inl e => throw e | inr a => ret a end.

Declare Scope api_scope.
Notation "'let*' x ':=' c 'in' k" := (bind c (fun x => k))
  (at level 10, x name, c at level 100, k at level 200) : api_scope.
Notation "c '>>' k" := (bind c (fun _ => k))
  (at level 100, k at level 200, right associativity) : api_scope.
Local Open Scope api_scope.

(** A statement block run under a [std::lock_guard]: the guard is released
    when the block is left, also by an exception. *)
Definition lock_guard {A} (device : Z) (block : M A) : M A :=
  fun w =>
    match block (emit (EvLock device) w) with
    | (w', Undefined) => (w', Undefined)
    | (w', r) => (emit (EvUnlock device) w', r)
    end.

Definition derefDevice (h : Z) : M DeviceObj :=
  fun w => match heap w !! h with
           | Some (ODevice d) => (w, Return d)
           | _ => (w, Undefined)
           end.

Definition derefBuffer (h : Z) : M BufferObj :=
  fun w => match heap w !! h with
           | Some (OBuffer b) => (w, Return b)
           | _ => (w, Undefined)
           end.

Definition derefFilter (h : Z) : M FilterObj :=
  fun w => match heap w !! h with
           | Some (OFilter f) => (w, Return f)
           | _ => (w, Undefined)
           end.

Definition store (h : Z) (o : Object) : M unit :=
  modify (set_heap (insert h o)).

(** Modelled from the spec: [obj->getDevice()] is declared with the object
    classes.  A device is its own device; a buffer or a filter holds a
    reference to the device it was created on. *)
Definition getDevice (obj : Z) : M Z :=
  fun w => match heap w !! obj with
           | Some (ODevice _) => (w, Return obj)
           | Some (OBuffer b) => (w, Return (buf_device b))
           | Some (OFilter f) => (w, Return (flt_device f))
           | None => (w, Undefined)
           end.

(** ** The device: error channel, commit state, queue *)

Definition dev_set_error (e : Error.t * string) (d : DeviceObj) : DeviceObj :=
  mkDevice (dev_refCount d) (dev_committed d) e (dev_externalMemoryTypes d)
    (dev_isSYCL d) (dev_depEvents d) (dev_doneEvents d).

Definition dev_set_committed (c : bool) (d : DeviceObj) : DeviceObj :=
  mkDevice (dev_refCount d) c (dev_error d) (dev_externalMemoryTypes d)
    (dev_isSYCL d) (dev_depEvents d) (dev_doneEvents d).

Definition dev_set_depEvents (l : list sycl_event) (d : DeviceObj) : DeviceObj :=
  mkDevice (dev_refCount d) (dev_committed d) (dev_error d)
    (dev_externalMemoryTypes d) (dev_isSYCL d) l (dev_doneEvents d).

Definition dev_set_doneEvents (l : list sycl_event) (d : DeviceObj) : DeviceObj :=
  mkDevice (dev_refCount d) (dev_committed d) (dev_error d)
    (dev_externalMemoryTypes d) (dev_isSYCL d) (dev_depEvents d) l.

(** Modelled from the spec: [Device::setError] is a member of [Device],
    defined outside [core/api.cpp].  A failure sets the device's single slot,
    replacing what it held, and the user callback fires on it (the
    [EvSetError] event); without a device the error goes to a thread-local
    slot. *)
Definition setError (device : Z) (code : Error.t) (message : string) : M unit :=
  modify (emit (EvSetError device code message)) >>
  if is_null device then modify (set_threadError (code, message))
  else let* d := derefDevice device in
       store device (ODevice (dev_set_error (code, message) d)).

(** Modelled from the spec: [Device::getError] is a member of [Device],
    defined outside [core/api.cpp].  Reading consumes the slot: the next read
    returns [None] with an empty message. *)
Definition getError (device : Z) : M (Error.t * string) :=
  if is_null device
  then fun w => (set_threadError (Error.None, "") w, Return (threadError w))
  else let* d := derefDevice device in
       store device (ODevice (dev_set_error (Error.None, "") d)) >>
       ret (dev_error d).

(** Modelled from the spec: [Device::checkCommitted] is a member of
    [Device], defined outside [core/api.cpp].  Creating a child object on a
    device that is not committed is an [InvalidOperation]. *)
Definition checkCommitted (device : Z) : M unit :=
  let* d := derefDevice device in
  if dev_committed d then ret tt
  else throw (Exception Error.InvalidOperation
                "changes to the device are not committed").

(** Modelled from the spec: [Device::commit] is a member of [Device],
    defined outside [core/api.cpp].  It is idempotent and moves the device to
    the committed state. *)
Definition Device_commit (device : Z) : M unit :=
  let* d := derefDevice device in
  store device (ODevice (dev_set_committed true d)).

(** Modelled from the spec: [Device::wait] drains the asynchronous work
    queued on the device. *)
Definition Device_wait (device : Z) : M unit :=
  let* _ := derefDevice device in
  modify (emit (EvWait device)).

(** ** Reference counts *)

Definition refCount (o : Object) : Z :=
  match o with
  | ODevice d => dev_refCount d
  | OBuffer b => buf_refCount b
  | OFilter f => flt_refCount f
  end.

Definition set_refCount (c : Z) (o : Object) : Object :=
  match o with
  | ODevice d =>
      ODevice (mkDevice c (dev_committed d) (dev_error d)
                 (dev_externalMemoryTypes d) (dev_isSYCL d) (dev_depEvents d)
                 (dev_doneEvents d))
  | OBuffer b =>
      OBuffer (mkBuffer c (buf_device b) (buf_byteSize b) (buf_data b)
                 (buf_storage b) (buf_external b))
  | OFilter f =>
      OFilter (mkFilter c (flt_device f) (flt_type f) (flt_images f)
                 (flt_dirty f) (flt_pending f))
  end.

Definition derefObject (h : Z) : M Object :=
  fun w => match heap w !! h with
           | Some o => (w, Return o)
           | None => (w, Undefined)
           end.

(** Modelled from the spec: [RefCount::incRef] is an atomic increment. *)
Definition incRef (obj : Z) : M unit :=
  let* o := derefObject obj in
  store obj (set_refCount (size_add (refCount o) 1) o).

(** ** References between objects *)

(** Modelled from the spec: a buffer and a filter hold a strong reference to
    their device, and an image over a buffer holds one to the buffer
    ([Ref<T>], declared outside [core/api.cpp]).  A reference that goes away
    is given back ([RefCount::decRef]): the count goes down by one, and the
    object is destroyed when that was the last reference.  A reference keeps
    its object in the store; a handle that is not in the store has nothing
    that could be given back. *)
Definition Ref_Device_release (device : Z) : M unit :=
  fun w =>
    match heap w !! device with
    | Some (ODevice d) =>
        if size_add (dev_refCount d) (-1) =? 0
        then (emit (EvDestroy device) (set_heap (delete device) w), Return tt)
        else (set_heap
                (insert device
                   (set_refCount (size_add (dev_refCount d) (-1)) (ODevice d)))
                w,
              Return tt)
    | _ => (w, Return tt)
    end.

(** Modelled from the spec: the reference of an image on its buffer is given
    back; a buffer that is destroyed gives back its reference on the
    device. *)
Definition Ref_Buffer_release (hBuffer : Z) : M unit :=
  fun w =>
    match heap w !! hBuffer with
    | Some (OBuffer b) =>
        if size_add (buf_refCount b) (-1) =? 0
        then Ref_Device_release (buf_device b)
               (emit (EvDestroy hBuffer) (set_heap (delete hBuffer) w))
        else (set_heap
                (insert hBuffer
                   (set_refCount (size_add (buf_refCount b) (-1)) (OBuffer b)))
                w,
              Return tt)
    | _ => (w, Return tt)
    end.

(** Modelled from the spec: an image that goes away gives back the
    reference on its buffer, if it has one. *)
Definition Image_release (image : Image) : M unit :=
  match buffer image with
  | Some hBuffer => Ref_Buffer_release hBuffer
  | None => ret tt
  end.

Fixpoint Images_release (images : list Image) : M unit :=
  match images with
  | [] => ret tt
  | image :: rest => Image_release image >> Images_release rest
  end.

(** Modelled from the spec: [destroy] runs the object's teardown; the object
    is no longer in the store afterwards.  The teardown of a buffer gives
    back its reference on the device; the teardown of a filter lets its
    images go and then gives back its reference on the device. *)
Definition destroy (obj : Z) : M unit :=
  fun w =>
    match heap w !! obj with
    | Some o =>
        let w' := emit (EvDestroy obj) (set_heap (delete obj) w) in
        match o with
        | ODevice _ => (w', Return tt)
        | OBuffer b => Ref_Device_release (buf_device b) w'
        | OFilter f =>
            (Images_release (map_to_list (flt_images f)).*2 >>
             Ref_Device_release (flt_device f)) w'
        end
    | None => (w, Undefined)
    end.

(** ** The engine and the filter *)

(** A fresh, non-null object address. *)
Definition fresh_handle (w : World) : Z := fresh ({[nullptr]} ∪ dom (heap w)).

(** Modelled from the spec: [Engine::newBuffer(byteSize, storage)] allocates
    memory of the storage class; the new buffer starts with one reference and
    holds a reference to its device. *)
Definition Engine_newBuffer (device byteSize : Z) (storage : Storage.t) : M Z :=
  fun w =>
    let h := fresh_handle w in
    let b := mkBuffer 1 device byteSize (brk w) storage None in
    (incRef device >> ret h)
      (set_brk (brk w + byteSize) (set_heap (insert h (OBuffer b)) w)).

(** Modelled from the spec: [Engine::newExternalBuffer] wraps memory imported
    from a file descriptor or from a Win32 handle or name, and records where
    it came from; the buffer holds a reference to its device. *)
Definition Engine_newExternalBuffer (device : Z) (src : ExternalSource)
    (byteSize : Z) : M Z :=
  fun w =>
    let h := fresh_handle w in
    let b := mkBuffer 1 device byteSize (brk w) Storage.Device (Some src) in
    (incRef device >> ret h)
      (set_brk (brk w + byteSize) (set_heap (insert h (OBuffer b)) w)).

(** Modelled from the spec: [Device::newFilter(type)] creates a filter by
    name, with nothing set and not yet committed; the filter holds a
    reference to its device. *)
Definition Device_newFilter (device : Z) (type : string) : M Z :=
  fun w =>
    let h := fresh_handle w in
    let f := mkFilter 1 device type ∅ true [] in
    (incRef device >> ret h) (set_heap (insert h (OFilter f)) w).

(** Modelled from the spec: [Filter::setImage(name, image)] binds the image
    to the named slot; a setter leaves the filter dirty until the next
    commit.  The image that was in the slot goes away. *)
Definition Filter_setImage (filter : Z) (name : string) (image : Image) : M unit :=
  let* f := derefFilter filter in
  store filter
    (OFilter (mkFilter (flt_refCount f) (flt_device f) (flt_type f)
                (<[name := image]> (flt_images f)) true (flt_pending f))) >>
  match flt_images f !! name with
  | Some replaced => Image_release replaced
  | None => ret tt
  end.

Inductive SyncMode := Sync | Async.

(** Modelled from the spec: [Filter::execute(sync)] fails with
    [InvalidOperation] on a dirty filter; otherwise the engine enqueues the
    filter's work after the dependency events, which leaves its completion
    events on the device, and a synchronous call waits for them. *)
Definition Filter_execute (filter : Z) (sync : SyncMode) : M unit :=
  let* f := derefFilter filter in
  if flt_dirty f
  then throw (Exception Error.InvalidOperation
                "changes to the filter are not committed")
  else
    let* d := derefDevice (flt_device f) in
    store (flt_device f) (ODevice (dev_set_doneEvents (flt_pending f) d)) >>
    match sync with
    | Sync => Device_wait (flt_device f)
    | Async => ret tt
    end.

(** Modelled from the spec: [SYCLDevice::setDepEvents] records the events
    the next execution depends on, and [SYCLDevice::getDoneEvents] gathers the
    completion events from the engine. *)
Definition setDepEvents (device : Z) (events : list sycl_event) : M unit :=
  let* d := derefDevice device in
  store device (ODevice (dev_set_depEvents events d)).

(** Modelled from the spec: [SYCLDevice::getDoneEvents], the completion
    events gathered from the engine. *)
Definition getDoneEvents (device : Z) : M (list sycl_event) :=
  let* d := derefDevice device in
  ret (dev_doneEvents d).

Section Core.

(** [ImageDesc::maxDim] is declared in [image.h]; the model takes it as a
    parameter.  [OIDN_DNNL] is the build flag that enables the oneDNN catch
    clause. *)
Variable maxDim : Z.
Variable OIDN_DNNL : bool.

(** [ImageDesc::ImageDesc(format, width, height, pixelByteStride, rowByteStride)] *)
Definition ImageDesc_ctor (format : Format.t)
    (width height pixelByteStride rowByteStride : Z) : Exc ImageDesc :=
  if (maxDim <? width) || (maxDim <? height)
     || (INT_MAX <? size_mul (size_mul width height) (getC format))
  then inl (Exception Error.InvalidArgument "image size too large")
  else
    let pixelByteSize := getFormatSize format in
    let wbs :=
      if negb (pixelByteStride =? 0)
      then if pixelByteStride <? pixelByteSize
           then inl (Exception Error.InvalidArgument
                       "pixel stride smaller than pixel size")
           else inr pixelByteStride
      else inr pixelByteSize in
    match wbs with
    | inl e => inl e
    | inr wByteStride =>
        if negb (rowByteStride =? 0)
        then if rowByteStride <? size_mul width wByteStride
             then inl (Exception Error.InvalidArgument
                         "row stride smaller than width * pixel stride")
             else inr (mkImageDesc width height format wByteStride rowByteStride)
        else inr (mkImageDesc width height format wByteStride
                    (size_mul width wByteStride))
    end.

(** [Image::Image(void* ptr, format, width, height, byteOffset,
    pixelByteStride, rowByteStride)] *)
Definition Image_ctor_ptr (p : Z) (format : Format.t)
    (width height byteOffset pixelByteStride rowByteStride : Z) : Exc Image :=
  match ImageDesc_ctor format width height pixelByteStride rowByteStride with
  | inl e => inl e
  | inr d =>
      if is_null p && (0 <? size_add byteOffset (getByteSize d))
      then inl (Exception Error.InvalidArgument "buffer region out of range")
      else inr (mkImage d (ptr_add p byteOffset) None)
  end.

(** [Image::Image(const Ref<Buffer>& buffer, format, width, height,
    byteOffset, pixelByteStride, rowByteStride)]; [bufByteSize] and [bufData]
    are [buffer->getByteSize()] and [buffer->getData()]. *)
Definition Image_ctor_buffer (hBuffer bufByteSize bufData : Z)
    (format : Format.t)
    (width height byteOffset pixelByteStride rowByteStride : Z) : Exc Image :=
  match ImageDesc_ctor format width height pixelByteStride rowByteStride with
  | inl e => inl e
  | inr d =>
      if bufByteSize <? size_add byteOffset (getByteSize d)
      then inl (Exception Error.InvalidArgument "buffer region out of range")
      else inr (mkImage d (ptr_add bufData byteOffset) (Some hBuffer))
  end.


(** ** The API boundary ([core/api.cpp]) *)

(** [decRefKeep] is declared with the reference-counted base class, outside
    [core/api.cpp]: it decrements the counter atomically and does not destroy
    the object.  What it hands back is a parameter: [decRefKeep_result c] is
    the value the caller reads when the counter held [c] before the
    decrement. *)
Variable decRefKeep_result : Z -> Z.

Definition decRefKeep (obj : Z) : M Z :=
  let* o := derefObject obj in
  store obj (set_refCount (size_add (refCount o) (-1)) o) >>
  ret (decRefKeep_result (refCount o)).

(** The [catch] clauses of [OIDN_CATCH], in order: the error code and the
    message handed to [Device::setError]. *)
Definition OIDN_CATCH (e : Thrown) : Error.t * string :=
  match e with
  | Exception code what => (code, what)
  | bad_alloc => (Error.OutOfMemory, "out of memory")
  | dnnl_error status message =>
      if OIDN_DNNL
      then match status with
           | dnnl_out_of_memory => (Error.OutOfMemory, "out of memory")
           | dnnl_other_status => (Error.Unknown, message)
           end
      else (Error.Unknown, message)   (* caught as a std::exception *)
  | std_exception what => (Error.Unknown, what)
  | foreign_throw => (Error.Unknown, "unknown exception caught")
  end.

(** [obj ? obj->getDevice() : nullptr] *)
Definition ownerDevice (obj : Z) : M Z :=
  if is_null obj then ret nullptr else getDevice obj.

(** [OIDN_TRY block OIDN_CATCH(obj)] followed by [return sentinel]: a
    [return] inside the block leaves the function with its value; an exception
    is reported with [Device::setError] and the function falls through to the
    statement after the handlers. *)
Definition OIDN_TRY_CATCH {A} (obj : Z) (block : M A) (sentinel : A) : M A :=
  fun w =>
    match block w with
    | (w', Return a) => (w', Return a)
    | (w', Throw e) =>
        (let* device := ownerDevice obj in
         setError device (OIDN_CATCH e).1 (OIDN_CATCH e).2 >>
         ret sentinel) w'
    | (w', Undefined) => (w', Undefined)
    end.

(** [OIDN_LOCK(obj)]: the rest of the block runs under the mutex of the
    device that owns [obj]. *)
Definition OIDN_LOCK {A} (obj : Z) (rest : M A) : M A :=
  let* device := getDevice obj in
  lock_guard device rest.

Definition checkHandle (handle : Z) : M unit :=
  if is_null handle
  then throw (Exception Error.InvalidArgument "invalid handle")
  else ret tt.

Definition retainObject (obj : Z) : M unit :=
  if negb (is_null obj) then incRef obj
  else OIDN_TRY_CATCH obj (checkHandle obj) tt.

(** [obj == nullptr || obj->decRefKeep() == 0] *)
Definition release_test (obj : Z) : M bool :=
  if is_null obj then ret true
  else let* c := decRefKeep obj in ret (c =? 0).

(** [releaseObject<T>] for buffers and filters. *)
Definition releaseObject (obj : Z) : M unit :=
  let* last := release_test obj in
  if (last : bool)
  then OIDN_TRY_CATCH obj
         (checkHandle obj >>
          OIDN_LOCK obj
            (let* device := getDevice obj in
             Device_wait device >>
             destroy obj))
         tt
  else ret tt.

(** [releaseObject<Device>]: the device is not locked, it owns the mutex. *)
Definition releaseObject_Device (obj : Z) : M unit :=
  let* last := release_test obj in
  if (last : bool)
  then OIDN_TRY_CATCH obj
         (checkHandle obj >>
          Device_wait obj >>
          destroy obj)
         tt
  else ret tt.

Definition oidnRetainDevice (hDevice : Z) : M unit := retainObject hDevice.
Definition oidnReleaseDevice (hDevice : Z) : M unit := releaseObject_Device hDevice.
Definition oidnRetainBuffer (hBuffer : Z) : M unit := retainObject hBuffer.
Definition oidnReleaseBuffer (hBuffer : Z) : M unit := releaseObject hBuffer.
Definition oidnRetainFilter (hFilter : Z) : M unit := retainObject hFilter.
Definition oidnReleaseFilter (hFilter : Z) : M unit := releaseObject hFilter.

(** The error code returned and the message written through [outMessage]. *)
Definition oidnGetDeviceError (hDevice : Z) : M (Error.t * string) :=
  OIDN_TRY_CATCH hDevice (getError hDevice) (Error.Unknown, "").

Definition oidnCommitDevice (hDevice : Z) : M unit :=
  OIDN_TRY_CATCH hDevice
    (checkHandle hDevice >>
     OIDN_LOCK hDevice (Device_commit hDevice))
    tt.


Definition oidnNewBuffer (hDevice byteSize : Z) : M Z :=
  OIDN_TRY_CATCH hDevice
    (checkHandle hDevice >>
     OIDN_LOCK hDevice
       (checkCommitted hDevice >>
        Engine_newBuffer hDevice byteSize Storage.Host))
    nullptr.

Definition oidnNewBufferWithStorage (hDevice byteSize : Z)
    (storage : Storage.t) : M Z :=
  OIDN_TRY_CATCH hDevice
    (checkHandle hDevice >>
     OIDN_LOCK hDevice
       (checkCommitted hDevice >>
        Engine_newBuffer hDevice byteSize storage))
    nullptr.

(** Modelled from the spec: the set of external memory types the device
    advertises, as a bit mask. *)
Definition getExternalMemoryTypes (device : Z) : M Z :=
  let* d := derefDevice device in
  ret (dev_externalMemoryTypes d).

(** [!(type & device->getExternalMemoryTypes())] *)
Definition checkExternalMemoryType (device type : Z) : M unit :=
  let* types := getExternalMemoryTypes device in
  if Z.land type types =? 0
  then throw (Exception Error.InvalidArgument
                "external memory type not supported by the device")
  else ret tt.

Definition oidnNewSharedBufferFromFD (hDevice fdType fd byteSize : Z) : M Z :=
  OIDN_TRY_CATCH hDevice
    (checkHandle hDevice >>
     OIDN_LOCK hDevice
       (checkCommitted hDevice >>
        checkExternalMemoryType hDevice fdType >>
        Engine_newExternalBuffer hDevice (FromFD fdType fd) byteSize))
    nullptr.

Definition oidnNewSharedBufferFromWin32Handle
    (hDevice handleType handle name byteSize : Z) : M Z :=
  OIDN_TRY_CATCH hDevice
    (checkHandle hDevice >>
     OIDN_LOCK hDevice
       (checkCommitted hDevice >>
        checkExternalMemoryType hDevice handleType >>
        (if (is_null handle && is_null name)
            || (negb (is_null handle) && negb (is_null name))
         then throw (Exception Error.InvalidArgument
                "exactly one of the external memory handle and name must be non-null")
         else ret tt) >>
        Engine_newExternalBuffer hDevice
          (FromWin32 handleType handle name) byteSize))
    nullptr.



Definition oidnNewFilter (hDevice : Z) (type : string) : M Z :=
  OIDN_TRY_CATCH hDevice
    (checkHandle hDevice >>
     OIDN_LOCK hDevice
       (checkCommitted hDevice >>
        Device_newFilter hDevice type))
    nullptr.

(** The arguments [(int)width] and [(int)height] as the [size_t] parameters
    of the image constructor receive them. *)
Definition int_arg (x : Z) : Z := size_t_of_int (int_of_size_t x).

(** [oidnSetFilterImage].  The image that was built holds a reference on
    its buffer ([Memory(buffer, byteOffset)], [image.cpp:60]); an image whose
    construction throws has given it back when the exception leaves.  The
    local [Ref<Buffer> buffer] takes a reference when it is initialised and
    gives it back on every way out of the block, so the count is the same
    after it. *)
Definition oidnSetFilterImage (hFilter : Z) (name : string) (hBuffer : Z)
    (format : Format.t)
    (width height byteOffset pixelByteStride rowByteStride : Z) : M unit :=
  OIDN_TRY_CATCH hFilter
    (checkHandle hFilter >>
     checkHandle hBuffer >>
     OIDN_LOCK hFilter
       (let* b := derefBuffer hBuffer in
        let* f := derefFilter hFilter in
        if negb (buf_device b =? flt_device f)
        then throw (Exception Error.InvalidArgument
                      "the specified objects are bound to different devices")
        else
          let* image :=
            lift (Image_ctor_buffer hBuffer (buf_byteSize b) (buf_data b)
                    format (int_arg width) (int_arg height) byteOffset
                    pixelByteStride rowByteStride) in
          incRef hBuffer >>
          Filter_setImage hFilter name image))
    tt.

Definition oidnSetSharedFilterImage (hFilter : Z) (name : string) (devPtr : Z)
    (format : Format.t)
    (width height byteOffset pixelByteStride rowByteStride : Z) : M unit :=
  OIDN_TRY_CATCH hFilter
    (checkHandle hFilter >>
     OIDN_LOCK hFilter
       (let* image :=
          lift (Image_ctor_ptr devPtr format (int_arg width) (int_arg height)
                  byteOffset pixelByteStride rowByteStride) in
        Filter_setImage hFilter name image))
    tt.



(** [oidnExecuteSYCLFilterAsync]: [depEvents] is the array behind the
    pointer, [doneEvent] tells whether the output pointer is non-null, and the
    result is what the call wrote through it, if anything. *)
Definition oidnExecuteSYCLFilterAsync (hFilter : Z)
    (depEvents : list sycl_event) (numDepEvents : Z) (doneEvent : bool)
    : M (option sycl_event) :=
  OIDN_TRY_CATCH hFilter
    (checkHandle hFilter >>
     (if numDepEvents <? 0
      then throw (Exception Error.InvalidArgument
                    "invalid number of dependent events")
      else ret tt) >>
     OIDN_LOCK hFilter
       (let* f := derefFilter hFilter in
        let filterDevice := flt_device f in
        let* d := derefDevice filterDevice in
        if negb (dev_isSYCL d)
        then throw (Exception Error.InvalidArgument
                      "filter does not belong to a SYCL device")
        else
          setDepEvents filterDevice (take (Z.to_nat numDepEvents) depEvents) >>
          Filter_execute hFilter Async >>
          let* doneEvents := getDoneEvents filterDevice in
          if doneEvent
          then match doneEvents with
               | [e] => ret (Some e)
               | [] => ret (Some default_event)
               | _ => throw (std_exception "missing barrier after filter kernels")
               end
          else ret None))
    None.

End Core.

(** ** The other constructors and members of [Image] *)

(** [Image::Image()]: the descriptor of [ImageDesc(Format::Undefined, 0, 0)]
    and a null pointer. *)
Definition Image_ctor_default (maxDim : Z) : Exc Image :=
  match ImageDesc_ctor maxDim Format.Undefined 0 0 0 0 with
  | inl e => inl e
  | inr d => inr (mkImage d nullptr None)
  end.

(** [Image::Image(const Ref<Buffer>& buffer, const ImageDesc& desc,
    size_t byteOffset)]: the descriptor is copied as it is. *)
Definition Image_ctor_buffer_desc (hBuffer bufByteSize bufData : Z)
    (d : ImageDesc) (byteOffset : Z) : Exc Image :=
  if bufByteSize <? size_add byteOffset (getByteSize d)
  then inl (Exception Error.InvalidArgument "buffer region out of range")
  else inr (mkImage d (ptr_add bufData byteOffset) (Some hBuffer)).

(** [void Image::updatePtr()]: [byteOffset] is the offset kept by the
    [Memory] base of the image, and the result is the image after the call.
    An image without a buffer is left alone. *)
Definition Image_updatePtr (i : Image) (byteOffset : Z) : M Image :=
  match buffer i with
  | Some hBuffer =>
      let* b := derefBuffer hBuffer in
      if buf_byteSize b <? size_add byteOffset (getByteSize (desc i))
      then throw (std_exception "buffer region out of range")
      else ret (mkImage (desc i) (ptr_add (buf_data b) byteOffset)
                  (Some hBuffer))
  | None => ret i
  end.

Module ispc.
Inductive DataType := DataType_Float32 | DataType_Float16 | DataType_UInt8.

Record ImageAccessor := mkImageAccessor {
  acc_ptr : Z;
  acc_hByteStride : Z;
  acc_wByteStride : Z;
  acc_dataType : DataType;
  acc_W : Z;
  acc_H : Z
}.
End ispc.

(** [Image::operator ispc::ImageAccessor() const] *)
Definition Image_to_ImageAccessor (i : Image) : Exc ispc.ImageAccessor :=
  let dataType :=
    if negb (bool_decide (format (desc i) = Format.Undefined))
    then match getDataType (format (desc i)) with
         | DataType.Float32 => inr ispc.DataType_Float32
         | DataType.Float16 => inr ispc.DataType_Float16
         | DataType.UInt8 => inr ispc.DataType_UInt8
         | DataType.Undefined => inl (std_exception "unsupported data type")
         end
    else inr ispc.DataType_Float32 in
  match dataType with
  | inl e => inl e
  | inr t =>
      inr (ispc.mkImageAccessor (ptr i) (hByteStride (desc i))
             (wByteStride (desc i)) t
             (int_of_size_t (width (desc i)))
             (int_of_size_t (height (desc i))))
  end.

(** ** Creating devices ([core/api.cpp]) *)

Module DeviceType.
Inductive t := Default | CPU | SYCL | CUDA | HIP.

#[global] Instance eq_dec : EqDecision t.
Proof. solve_decision. Defined.
End DeviceType.

(** The device backends compiled in ([OIDN_DEVICE_CPU], ...), and what
    [CUDADevice::isSupported()], [HIPDevice::isSupported()] and
    [SYCLDevice::isSupported()] answer on the machine. *)
Record Build := mkBuild {
  OIDN_DEVICE_CPU : bool;
  OIDN_DEVICE_SYCL : bool;
  OIDN_DEVICE_CUDA : bool;
  OIDN_DEVICE_HIP : bool;
  CUDA_isSupported : bool;
  HIP_isSupported : bool;
  SYCL_isSupported : bool
}.

Definition is_type (a b : DeviceType.t) : bool := bool_decide (a = b).

(** The chain of [if ... else] in [oidnNewDevice]: the class of the device
    that is made, or the exception of the last [else]. *)
Definition select_device (b : Build) (type : DeviceType.t) : Exc DeviceType.t :=
  if OIDN_DEVICE_CUDA b
     && (is_type type DeviceType.CUDA
         || (is_type type DeviceType.Default && CUDA_isSupported b))
  then inr DeviceType.CUDA
  else if OIDN_DEVICE_HIP b
          && (is_type type DeviceType.HIP
              || (is_type type DeviceType.Default && HIP_isSupported b))
  then inr DeviceType.HIP
  else if OIDN_DEVICE_SYCL b
          && (is_type type DeviceType.SYCL
              || (is_type type DeviceType.Default && SYCL_isSupported b))
  then inr DeviceType.SYCL
  else if OIDN_DEVICE_CPU b
          && (is_type type DeviceType.CPU || is_type type DeviceType.Default)
  then inr DeviceType.CPU
  else inl (Exception Error.InvalidArgument "unsupported device type").

(** Modelled from the spec: [makeRef<CPUDevice>()] and the like construct a
    device outside [core/api.cpp].  A new device holds one reference, is not
    committed and has no error. *)
Definition makeDevice (kind : DeviceType.t) : M Z :=
  fun w =>
    let h := fresh_handle w in
    let d := mkDevice 1 false (Error.None, "") 0
               (is_type kind DeviceType.SYCL) [] [] in
    (set_heap (insert h (ODevice d)) w, Return h).

(** An entry point that creates a device: the [Ref<Device>] is null until
    the block assigns it, the handlers see that null, and the function
    returns [device.detach()]. *)
Definition new_device_entry (OIDN_DNNL : bool) (block : M Z) : M Z :=
  OIDN_TRY_CATCH OIDN_DNNL nullptr block nullptr.

Definition oidnNewDevice (OIDN_DNNL : bool) (b : Build)
    (type : DeviceType.t) : M Z :=
  new_device_entry OIDN_DNNL
    (let* kind := lift (select_device b type) in
     makeDevice kind).

Definition oidnNewSYCLDevice (OIDN_DNNL : bool) (numQueues : Z) : M Z :=
  new_device_entry OIDN_DNNL
    (if numQueues <? 0
     then throw (Exception Error.InvalidArgument "invalid number of queues")
     else makeDevice DeviceType.SYCL).

Definition oidnNewCUDADevice (OIDN_DNNL : bool) (numStreams : Z) : M Z :=
  new_device_entry OIDN_DNNL
    (if numStreams =? 1 then makeDevice DeviceType.CUDA
     else if numStreams =? 0 then makeDevice DeviceType.CUDA
     else throw (Exception Error.InvalidArgument
                   "unsupported number of streams")).

Definition oidnNewHIPDevice (OIDN_DNNL : bool) (numStreams : Z) : M Z :=
  new_device_entry OIDN_DNNL
    (if numStreams =? 1 then makeDevice DeviceType.HIP
     else if numStreams =? 0 then makeDevice DeviceType.HIP
     else throw (Exception Error.InvalidArgument
                   "unsupported number of streams")).


(** Whether the backend of a device class is compiled in, and whether it
    says it is supported (the CPU backend is not asked). *)
Definition compiled (b : Build) (kind : DeviceType.t) : bool :=
  match kind with
  | DeviceType.Default => false
  | DeviceType.CPU => OIDN_DEVICE_CPU b
  | DeviceType.SYCL => OIDN_DEVICE_SYCL b
  | DeviceType.CUDA => OIDN_DEVICE_CUDA b
  | DeviceType.HIP => OIDN_DEVICE_HIP b
  end.

Definition supported (b : Build) (kind : DeviceType.t) : bool :=
  match kind with
  | DeviceType.Default => false
  | DeviceType.CPU => true
  | DeviceType.SYCL => SYCL_isSupported b
  | DeviceType.CUDA => CUDA_isSupported b
  | DeviceType.HIP => HIP_isSupported b
  end.

(** The store after a device of class [kind] was made. *)
Definition device_made (kind : DeviceType.t) (w : World) : World :=
  set_heap
    (insert (fresh_handle w)
       (ODevice (mkDevice 1 false (Error.None, "") 0
                   (is_type kind DeviceType.SYCL) [] [])))
    w.

(** A build with the CPU and CUDA backends, on a machine without a CUDA
    device. *)
Definition sample_build : Build :=
  mkBuild true false true false false false false.

(** ** Observations on the store *)

(** The store after a lock was taken and released with nothing in between
    that the trace records. *)
Definition locked (device : Z) (w : World) : World :=
  emit (EvUnlock device) (emit (EvLock device) w).

(** The store after [Device::setError(device, code, message)] on a live
    device whose state was [d]. *)
Definition reported (device : Z) (d : DeviceObj) (code : Error.t)
    (message : string) (w : World) : World :=
  set_heap (insert device (ODevice (dev_set_error (code, message) d)))
    (emit (EvSetError device code message) w).

(** The error slot of a live device. *)
Definition deviceError (w : World) (device : Z) : option (Error.t * string) :=
  match heap w !! device with
  | Some (ODevice d) => Some (dev_error d)
  | _ => None
  end.

(** A call on [device] from store [w] that ended in [r] created an object:
    it returned a non-null handle to an object that was not there before,
    under the device lock, and reported no error. *)
Definition creates_object (w : World) (device : Z) (r : World * Outcome Z)
    : Prop :=
  exists h, r.2 = Return h
    /\ h <> nullptr
    /\ heap w !! h = None
    /\ is_Some (heap r.1 !! h)
    /\ trace r.1 = trace w ++ [EvLock device; EvUnlock device]
    /\ deviceError r.1 device = deviceError w device.

(** A device with one more reference: what a buffer or a filter that was
    made on it leaves. *)
Definition device_referenced (d : DeviceObj) : Object :=
  set_refCount (size_add (dev_refCount d) 1) (ODevice d).

(** A buffer with one more reference: what an image that was built over it
    leaves. *)
Definition buffer_referenced (b : BufferObj) : Object :=
  set_refCount (size_add (buf_refCount b) 1) (OBuffer b).


(** The events of a teardown. *)
Definition is_Destroy (ev : Event) : bool :=
  match ev with EvDestroy _ => true | _ => false end.

(** What references that are given back can do to a store: the trace gains
    only teardown events, no object appears in a free place, and every
    filter, the buffer memory and the thread's error slot stay as they
    are. *)
Definition gives_back (w w' : World) : Prop :=
  (exists rest, trace w' = trace w ++ rest /\ forallb is_Destroy rest = true)
  /\ (forall k, heap w !! k = None -> heap w' !! k = None)
  /\ (forall k f, heap w !! k = Some (OFilter f) ->
                  heap w' !! k = Some (OFilter f))
  /\ brk w' = brk w
  /\ threadError w' = threadError w.

(** The device that owns an object stored at [self]. *)
Definition owner_of (self : Z) (o : Object) : Z :=
  match o with
  | ODevice _ => self
  | OBuffer b => buf_device b
  | OFilter f => flt_device f
  end.

Definition is_child (o : Object) : bool :=
  match o with
  | ODevice _ => false
  | OBuffer _ | OFilter _ => true
  end.

(** Modelled from the spec: [RefCount::decRefKeep] is declared outside
    [core/api.cpp].  It is the fetch-and-decrement of the reference count;
    the caller that destroys the object on its last reference compares what
    it hands back with zero ([api.cpp:84]), so that is the count after the
    decrement. *)
Definition new_count (c : Z) : Z := size_add c (-1).

(** The messages of the exceptions the entry points throw. *)
Definition not_committed_message : string :=
  "changes to the device are not committed".
Definition unsupported_type_message : string :=
  "external memory type not supported by the device".
Definition handle_and_name_message : string :=
  "exactly one of the external memory handle and name must be non-null".
Definition different_devices_message : string :=
  "the specified objects are bound to different devices".
Definition missing_barrier_message : string :=
  "missing barrier after filter kernels".

(** Exactly one of the Win32 handle and the name is non-null. *)
Definition exactly_one (handle name : Z) : Prop :=
  (handle <> nullptr /\ name = nullptr) \/ (handle = nullptr /\ name <> nullptr).

(** The events a call appended to the trace that report an error. *)
Definition is_SetError (ev : Event) : bool :=
  match ev with EvSetError _ _ _ => true | _ => false end.

Definition errors_since (w w' : World) : list Event :=
  List.filter is_SetError (drop (length (trace w)) (trace w')).

(** The device after an execution of filter [f] was enqueued on it. *)
Definition enqueued_device (f : FilterObj) (d : DeviceObj)
    (depEvents : list sycl_event) (numDepEvents : Z) : DeviceObj :=
  dev_set_doneEvents (flt_pending f)
    (dev_set_depEvents (take (Z.to_nat numDepEvents) depEvents) d).

(** The store after the execution was enqueued and the lock released. *)
Definition enqueued_world (w : World) (f : FilterObj) (d : DeviceObj)
    (depEvents : list sycl_event) (numDepEvents : Z) : World :=
  emit (EvUnlock (flt_device f))
    (set_heap
       (insert (flt_device f)
          (ODevice (enqueued_device f d depEvents numDepEvents)))
       (emit (EvLock (flt_device f)) w)).





(** The store after an error was reported with no device to hold it. *)
Definition reported_nowhere (code : Error.t) (message : string) (w : World)
    : World :=
  set_threadError (code, message) (emit (EvSetError nullptr code message) w).

(** The messages of the other exceptions of the entry points. *)
Definition negative_count_message : string :=
  "invalid number of dependent events".
Definition not_SYCL_message : string :=
  "filter does not belong to a SYCL device".
Definition too_large_message : string := "image size too large".

(** The filter after an image was bound to one of its slots. *)
Definition with_image (f : FilterObj) (name : string) (image : Image)
    : FilterObj :=
  mkFilter (flt_refCount f) (flt_device f) (flt_type f)
    (<[name := image]> (flt_images f)) true (flt_pending f).

(** The store with [image] in the slot [name] of the filter. *)
Definition slot_set (hFilter : Z) (f : FilterObj) (name : string)
    (image : Image) (w : World) : World :=
  set_heap (insert hFilter (OFilter (with_image f name image))) w.

(** The image that was in the slot [name] of [f] goes away, and the mutex of
    the filter's device is released. *)
Definition replaced_released (f : FilterObj) (name : string) (w : World)
    : World :=
  emit (EvUnlock (flt_device f))
    match flt_images f !! name with
    | Some replaced => (Image_release replaced w).1
    | None => w
    end.

(** ** Sample data *)

(** A dimension limit for the runs of the model that need a concrete one. *)
Definition sample_maxDim : Z := 65536.

(** Two images over raw pointers, as the constructor builds them: 64 bytes
    at address 4096 and 64 bytes at address 4128. *)
Definition raw_image_1 : Image :=
  mkImage (mkImageDesc 4 4 Format.Float 4 16) 4096 None.
Definition raw_image_2 : Image :=
  mkImage (mkImageDesc 4 4 Format.Float 4 16) 4128 None.

(** A one-pixel [Float] image whose pointer is the last four bytes of the
    address space: what the raw-pointer constructor builds from a null
    pointer and the byte offset [2^64 - 4]. *)
Definition wrapped_image : Image :=
  mkImage (mkImageDesc 1 1 Format.Float 4 4) (SIZE_MOD - 4) None.

(** A store with a committed device A that advertises external memory type
    bit 0, a committed SYCL device B, a device C that is not committed, a
    buffer on A, a committed filter on B that leaves one completion event,
    and a filter on A. *)
Definition hDeviceA : Z := 16.
Definition hDeviceB : Z := 32.
Definition hDeviceC : Z := 48.
Definition hBufferA : Z := 64.
Definition hFilterB : Z := 80.
Definition hFilterA : Z := 96.

Definition deviceA : DeviceObj := mkDevice 3 true (Error.None, "") 1 false [] [].
Definition deviceB : DeviceObj := mkDevice 2 true (Error.None, "") 0 true [] [].
Definition deviceC : DeviceObj := mkDevice 1 false (Error.None, "") 0 false [] [].
Definition bufferA : BufferObj :=
  mkBuffer 1 hDeviceA 4096 65536 Storage.Host None.
Definition filterB : FilterObj :=
  mkFilter 1 hDeviceB "RT" ∅ false [queue_event 7].
Definition filterA : FilterObj := mkFilter 1 hDeviceA "RT" ∅ true [].

Definition sample_world : World :=
  mkWorld
    (<[hDeviceA := ODevice deviceA]>
       (<[hDeviceB := ODevice deviceB]>
          (<[hDeviceC := ODevice deviceC]>
             (<[hBufferA := OBuffer bufferA]>
                (<[hFilterB := OFilter filterB]>
                   (<[hFilterA := OFilter filterA]> ∅))))))
    69632 (Error.None, "") [].

(** * Properties *)

(** Closed comparisons and runs of the model are settled by evaluation. *)
Ltac by_compute :=
  vm_compute; repeat split; solve [reflexivity | discriminate].

(** ** Arithmetic of the machine types *)

Lemma size_wrap_small x : is_size_t x -> size_wrap x = x.
Proof. unfold is_size_t, size_wrap. intros H. apply Z.mod_small. exact H. Qed.

Lemma size_wrap_range x : is_size_t (size_wrap x).
Proof.
  unfold is_size_t, size_wrap, SIZE_MOD, SIZE_WIDTH.
  apply Z.mod_pos_bound. reflexivity.
Qed.

Lemma size_mul_exact a b : 0 <= a * b < SIZE_MOD -> size_mul a b = a * b.
Proof. intros H. unfold size_mul. apply size_wrap_small. exact H. Qed.

Lemma size_add_exact a b : 0 <= a + b < SIZE_MOD -> size_add a b = a + b.
Proof. intros H. unfold size_add. apply size_wrap_small. exact H. Qed.

Lemma getC_range f : 0 <= getC f <= 4.
Proof. destruct f; simpl; lia. Qed.

Lemma getFormatSize_range f : 0 <= getFormatSize f <= 16.
Proof. destruct f; unfold getFormatSize; simpl; lia. Qed.

(** ** Image descriptors *)

Section ImageDescFacts.

Variable maxDim : Z.

(** [maxDim] is a dimension that fits an [int]. *)
Hypothesis maxDim_int : 0 <= maxDim <= INT_MAX.

Lemma pixel_count_exact w h f :
  0 <= w <= maxDim -> 0 <= h <= maxDim ->
  size_mul (size_mul w h) (getC f) = w * h * getC f.
Proof using maxDim_int.
  intros Hw Hh. pose proof (getC_range f) as Hc.
  unfold INT_MAX in maxDim_int.
  assert (Hwh : 0 <= w * h <= 2147483647 * 2147483647).
  { split; [apply Z.mul_nonneg_nonneg; lia |].
    apply Z.mul_le_mono_nonneg; lia. }
  assert (Hmod : SIZE_MOD = 18446744073709551616) by reflexivity.
  rewrite (size_mul_exact w h) by lia.
  apply size_mul_exact. rewrite Hmod. split.
  - apply Z.mul_nonneg_nonneg; lia.
  - apply Z.le_lt_trans with (2147483647 * 2147483647 * 4); [| lia].
    apply Z.mul_le_mono_nonneg; lia.
Qed.

(** The size test of the constructor, as a proposition. *)
Lemma size_test_spec w h f :
  is_size_t w -> is_size_t h ->
  (maxDim <? w) || (maxDim <? h)
    || (INT_MAX <? size_mul (size_mul w h) (getC f)) = false
  <-> w <= maxDim /\ h <= maxDim /\ w * h * getC f <= INT_MAX.
Proof using maxDim_int.
  intros [Hw _] [Hh _]. rewrite !orb_false_iff, !Z.ltb_ge. split.
  - intros [[H1 H2] H3]. rewrite pixel_count_exact in H3 by lia. lia.
  - intros (H1 & H2 & H3). rewrite pixel_count_exact by lia. lia.
Qed.

(** What the constructor does once the size test has passed. *)
Lemma ImageDesc_ctor_sized f w h ps rs :
  is_size_t w -> is_size_t h ->
  w <= maxDim -> h <= maxDim -> w * h * getC f <= INT_MAX ->
  ImageDesc_ctor maxDim f w h ps rs =
    if negb (ps =? 0) && (ps <? getFormatSize f)
    then inl (Exception Error.InvalidArgument
                "pixel stride smaller than pixel size")
    else
      let wbs := if ps =? 0 then getFormatSize f else ps in
      if negb (rs =? 0) && (rs <? size_mul w wbs)
      then inl (Exception Error.InvalidArgument
                  "row stride smaller than width * pixel stride")
      else inr (mkImageDesc w h f wbs
                  (if rs =? 0 then size_mul w wbs else rs)).
Proof using maxDim_int.
  intros Hw Hh H1 H2 H3. unfold ImageDesc_ctor.
  rewrite (proj2 (size_test_spec w h f Hw Hh)) by auto.
  destruct (ps =? 0); simpl.
  - destruct (rs =? 0); simpl; [reflexivity |].
    destruct (rs <? size_mul w (getFormatSize f)); reflexivity.
  - destruct (ps <? getFormatSize f); simpl; [reflexivity |].
    destruct (rs =? 0); simpl; [reflexivity |].
    destruct (rs <? size_mul w ps); reflexivity.
Qed.

End ImageDescFacts.

(** C9. Construction of an [ImageDesc] succeeds only when [width <= maxDim],
    [height <= maxDim] and [width * height * channels <= INT32_MAX]; a size
    that breaks one of the three raises [InvalidArgument] with the message
    "image size too large". *)
Theorem ImageDesc_ctor_size_limit (maxDim : Z) (f : Format.t) (w h ps rs : Z) :
  0 <= maxDim <= INT_MAX ->
  is_size_t w -> is_size_t h ->
  (forall d, ImageDesc_ctor maxDim f w h ps rs = inr d ->
     w <= maxDim /\ h <= maxDim /\ w * h * getC f <= INT_MAX)
  /\ (maxDim < w \/ maxDim < h \/ INT_MAX < w * h * getC f ->
      ImageDesc_ctor maxDim f w h ps rs
      = inl (Exception Error.InvalidArgument "image size too large")).
Proof.
  intros Hm Hw Hh. unfold ImageDesc_ctor.
  destruct ((maxDim <? w) || (maxDim <? h)
            || (INT_MAX <? size_mul (size_mul w h) (getC f))) eqn:E.
  - split; [intros d Hd; discriminate | reflexivity].
  - apply (size_test_spec maxDim Hm w h f Hw Hh) in E.
    split; [intros _ _; exact E | lia].
Qed.

Lemma ImageDesc_ctor_size_limit_witness :
  0 <= 65536 <= INT_MAX /\ is_size_t 1920 /\ is_size_t 1080 /\
  ((forall d, ImageDesc_ctor 65536 Format.Float3 1920 1080 0 0 = inr d ->
      1920 <= 65536 /\ 1080 <= 65536
      /\ 1920 * 1080 * getC Format.Float3 <= INT_MAX)
   /\ (65536 < 1920 \/ 65536 < 1080
       \/ INT_MAX < 1920 * 1080 * getC Format.Float3 ->
       ImageDesc_ctor 65536 Format.Float3 1920 1080 0 0
       = inl (Exception Error.InvalidArgument "image size too large"))).
Proof.
  assert (H1 : 0 <= 65536 <= INT_MAX) by by_compute.
  assert (H2 : is_size_t 1920) by by_compute.
  assert (H3 : is_size_t 1080) by by_compute.
  refine (conj H1 (conj H2 (conj H3 _))).
  exact (ImageDesc_ctor_size_limit 65536 Format.Float3 1920 1080 0 0 H1 H2 H3).
Defined.

(** C3, as stated: [Float3] pixels take 12 bytes, so the scenario's pixel
    stride of 8 is refused and no descriptor with [wByteStride = 8] and
    [hByteStride = 8192] is built.  Besides, the product
    [width * wByteStride] is a [size_t] product: with width 2 and a pixel
    stride of [2^63] it wraps to 0, and a row stride of 1 is accepted. *)
Lemma ImageDesc_Float3_stride8_rejected :
  getFormatSize Format.Float3 = 12
  /\ ImageDesc_ctor sample_maxDim Format.Float3 1024 1024 8 0
     = inl (Exception Error.InvalidArgument
              "pixel stride smaller than pixel size")
  /\ ImageDesc_ctor sample_maxDim Format.Float 2 1 (2 ^ 63) 1
     = inr (mkImageDesc 2 1 Format.Float (2 ^ 63) 1).
Proof. repeat split; reflexivity. Qed.

(** C3, amended. For a size that passes the size test and strides whose
    product [width * wByteStride] fits a [size_t]: a zero [pixelByteStride]
    defaults [wByteStride] to the pixel size and a zero [rowByteStride]
    defaults [hByteStride] to [width * wByteStride]; an explicit pixel stride
    below the pixel size, or an explicit row stride below
    [width * wByteStride], raises [InvalidArgument]; any other strides are
    accepted as given.  For [Float3], width 1024, height 1024,
    [pixelByteStride = 8], [rowByteStride = 0] the constructor raises
    [InvalidArgument]. *)
Theorem ImageDesc_ctor_strides (maxDim : Z) :
  0 <= maxDim <= INT_MAX ->
  (forall (f : Format.t) (w h ps rs : Z),
      is_size_t w -> is_size_t h -> 0 <= ps ->
      w <= maxDim -> h <= maxDim -> w * h * getC f <= INT_MAX ->
      let wbs := if ps =? 0 then getFormatSize f else ps in
      w * wbs < SIZE_MOD ->
      (forall d, ImageDesc_ctor maxDim f w h ps rs = inr d ->
         wByteStride d = wbs
         /\ hByteStride d = (if rs =? 0 then w * wByteStride d else rs))
      /\ (ps <> 0 -> ps < getFormatSize f ->
          ImageDesc_ctor maxDim f w h ps rs
          = inl (Exception Error.InvalidArgument
                   "pixel stride smaller than pixel size"))
      /\ (rs <> 0 -> rs < w * wbs ->
          exists msg, ImageDesc_ctor maxDim f w h ps rs
                      = inl (Exception Error.InvalidArgument msg))
      /\ ((ps = 0 \/ getFormatSize f <= ps) -> (rs = 0 \/ w * wbs <= rs) ->
          exists d, ImageDesc_ctor maxDim f w h ps rs = inr d))
  /\ (exists msg, ImageDesc_ctor maxDim Format.Float3 1024 1024 8 0
                  = inl (Exception Error.InvalidArgument msg)).
Proof.
  intros Hm. split.
  - intros f w h ps rs Hw Hh Hps H1 H2 H3 wbs Hfit.
    rewrite (ImageDesc_ctor_sized maxDim Hm f w h ps rs Hw Hh H1 H2 H3).
    fold wbs.
    assert (Hwbs : 0 <= wbs).
    { unfold wbs. pose proof (getFormatSize_range f).
      destruct (ps =? 0); lia. }
    assert (Hmul : size_mul w wbs = w * wbs).
    { apply size_mul_exact. split; [| exact Hfit].
      apply Z.mul_nonneg_nonneg; [apply Hw | exact Hwbs]. }
    cbv zeta. rewrite Hmul.
    destruct (negb (ps =? 0) && (ps <? getFormatSize f)) eqn:Ep.
    + (* the pixel stride is refused *)
      apply andb_true_iff in Ep as [Ep1 Ep2].
      apply negb_true_iff, Z.eqb_neq in Ep1. apply Z.ltb_lt in Ep2.
      split; [intros d Hd; discriminate |].
      split; [reflexivity |].
      split; [eauto |].
      intros [-> | Hge] _; [congruence | lia].
    + assert (Hps_ok : ps = 0 \/ getFormatSize f <= ps).
      { apply andb_false_iff in Ep as [Ep | Ep].
        - left. apply negb_false_iff in Ep. apply Z.eqb_eq. exact Ep.
        - right. apply Z.ltb_ge. exact Ep. }
      destruct (negb (rs =? 0) && (rs <? w * wbs)) eqn:Er.
      * (* the row stride is refused *)
        apply andb_true_iff in Er as [Er1 Er2].
        apply negb_true_iff, Z.eqb_neq in Er1. apply Z.ltb_lt in Er2.
        split; [intros d Hd; discriminate |].
        split; [intros Hne Hlt; exfalso; destruct Hps_ok; [congruence | lia] |].
        split; [eauto |].
        intros _ [-> | Hge]; [congruence | lia].
      * assert (Hrs_ok : rs = 0 \/ w * wbs <= rs).
        { apply andb_false_iff in Er as [Er | Er].
          - left. apply negb_false_iff in Er. apply Z.eqb_eq. exact Er.
          - right. apply Z.ltb_ge. exact Er. }
        split; [intros d Hd; injection Hd as <-; simpl; split; reflexivity |].
        split; [intros Hne Hlt; exfalso; destruct Hps_ok; [congruence | lia] |].
        split; [intros Hne Hlt; exfalso; destruct Hrs_ok; [congruence | lia] |].
        eauto.
  - unfold ImageDesc_ctor.
    destruct ((maxDim <? 1024) || (maxDim <? 1024)
              || (INT_MAX <? size_mul (size_mul 1024 1024)
                               (getC Format.Float3))); eauto.
Qed.

Lemma ImageDesc_ctor_strides_witness :
  exists d, ImageDesc_ctor sample_maxDim Format.Float3 1024 1024 0 0 = inr d
            /\ wByteStride d = 12 /\ hByteStride d = 12288.
Proof.
  assert (Hm : 0 <= sample_maxDim <= INT_MAX) by by_compute.
  assert (Hs : is_size_t 1024) by by_compute.
  assert (H0 : 0 <= 0) by by_compute.
  assert (Hd : 1024 <= sample_maxDim) by by_compute.
  assert (Hc : 1024 * 1024 * getC Format.Float3 <= INT_MAX) by by_compute.
  assert (Hf : 1024 * (if 0 =? 0 then getFormatSize Format.Float3 else 0)
               < SIZE_MOD) by by_compute.
  destruct (proj1 (ImageDesc_ctor_strides sample_maxDim Hm)
              Format.Float3 1024 1024 0 0 Hs Hs H0 Hd Hd Hc Hf)
    as (Hstr & _ & _ & Hok).
  destruct (Hok (or_introl eq_refl) (or_introl eq_refl)) as [d Hd'].
  exists d. destruct (Hstr d Hd') as [Hw Hh].
  split; [exact Hd' |]. split; [exact Hw |]. rewrite Hh, Hw. reflexivity.
Defined.

(** ** Overlap of images *)

Lemma overlaps_null i j :
  ptr i = nullptr \/ ptr j = nullptr -> overlaps i j = false.
Proof.
  unfold overlaps, is_null. intros [-> | ->]; simpl; [reflexivity |].
  rewrite orb_true_r. reflexivity.
Qed.

Lemma overlaps_different_buffers i j :
  buffer i <> buffer j -> overlaps i j = false.
Proof.
  intros Hne. unfold overlaps.
  destruct (is_null (ptr i) || is_null (ptr j)); [reflexivity |].
  rewrite bool_decide_eq_false_2 by exact Hne. reflexivity.
Qed.

Lemma overlaps_same_buffer i j :
  ptr i <> nullptr -> ptr j <> nullptr -> buffer i = buffer j ->
  overlaps i j = true
  <-> Image_begin i < Image_end j /\ Image_begin j < Image_end i.
Proof.
  intros Hi Hj Hb. unfold overlaps, is_null.
  rewrite (proj2 (Z.eqb_neq _ _) Hi), (proj2 (Z.eqb_neq _ _) Hj).
  rewrite bool_decide_eq_true_2 by exact Hb. simpl.
  rewrite andb_true_iff, !Z.ltb_lt. reflexivity.
Qed.

(** Two non-empty half-open intervals share a byte exactly when each starts
    before the other ends. *)
Lemma intervals_intersect a b c d :
  a < b -> c < d ->
  (a < d /\ c < b) <-> (exists x, (a <= x < b) /\ (c <= x < d)).
Proof.
  intros Hab Hcd. split.
  - intros [H1 H2]. exists (Z.max a c). lia.
  - intros (x & Hx1 & Hx2). lia.
Qed.

(** C1, the last part as stated: two images backed only by raw pointers do
    overlap when their byte ranges intersect. *)
Lemma overlaps_raw_pointer_images :
  Image_ctor_ptr sample_maxDim 4096 Format.Float 4 4 0 0 0 = inr raw_image_1
  /\ Image_ctor_ptr sample_maxDim 4096 Format.Float 4 4 32 0 0 = inr raw_image_2
  /\ buffer raw_image_1 = None /\ buffer raw_image_2 = None
  /\ overlaps raw_image_1 raw_image_2 = true.
Proof. repeat split; reflexivity. Qed.

(** C1, amended. [overlaps i j] is false when either image has a null
    pointer or when the backing buffers differ; otherwise it is true exactly
    when [begin(i) < end(j)] and [begin(j) < end(i)], which for non-empty
    byte intervals says that they share a byte.  Two images over raw pointers
    have the same (absent) buffer, so they fall under the interval test like
    two images over one buffer. *)
Theorem overlaps_spec (i j : Image) :
  (ptr i = nullptr \/ ptr j = nullptr -> overlaps i j = false)
  /\ (buffer i <> buffer j -> overlaps i j = false)
  /\ (ptr i <> nullptr -> ptr j <> nullptr -> buffer i = buffer j ->
      (overlaps i j = true
       <-> Image_begin i < Image_end j /\ Image_begin j < Image_end i)
      /\ (Image_begin i < Image_end i -> Image_begin j < Image_end j ->
          overlaps i j = true
          <-> exists x, (Image_begin i <= x < Image_end i)
                        /\ (Image_begin j <= x < Image_end j)))
  /\ (ptr i <> nullptr -> ptr j <> nullptr ->
      buffer i = None -> buffer j = None ->
      overlaps i j = true
      <-> Image_begin i < Image_end j /\ Image_begin j < Image_end i).
Proof.
  split; [apply overlaps_null |].
  split; [apply overlaps_different_buffers |].
  split.
  - intros Hi Hj Hb. split; [apply overlaps_same_buffer; assumption |].
    intros Hne1 Hne2.
    rewrite <- (intervals_intersect _ _ _ _ Hne1 Hne2).
    apply overlaps_same_buffer; assumption.
  - intros Hi Hj Hbi Hbj. apply overlaps_same_buffer; congruence.
Qed.

Lemma overlaps_spec_witness :
  ptr raw_image_1 <> nullptr /\ ptr raw_image_2 <> nullptr
  /\ buffer raw_image_1 = None /\ buffer raw_image_2 = None
  /\ (overlaps raw_image_1 raw_image_2 = true
      <-> Image_begin raw_image_1 < Image_end raw_image_2
          /\ Image_begin raw_image_2 < Image_end raw_image_1).
Proof.
  assert (H1 : ptr raw_image_1 <> nullptr) by discriminate.
  assert (H2 : ptr raw_image_2 <> nullptr) by discriminate.
  refine (conj H1 (conj H2 (conj eq_refl (conj eq_refl _)))).
  exact (proj2 (proj2 (proj2 (overlaps_spec raw_image_1 raw_image_2)))
           H1 H2 eq_refl eq_refl).
Defined.

(** ** Running the entry points *)

Ltac world_simpl :=
  cbn [heap brk threadError trace set_heap set_brk set_threadError emit
       fst snd
       dev_refCount dev_committed dev_error dev_externalMemoryTypes dev_isSYCL
       dev_depEvents dev_doneEvents dev_set_error dev_set_committed
       dev_set_depEvents dev_set_doneEvents
       buf_refCount buf_device buf_byteSize buf_data buf_storage buf_external
       flt_refCount flt_device flt_type flt_images flt_dirty flt_pending
       refCount set_refCount owner_of is_child].

Ltac api_unfold :=
  unfold OIDN_TRY_CATCH, OIDN_LOCK, lock_guard, ownerDevice, setError,
    checkCommitted, checkExternalMemoryType, getExternalMemoryTypes,
    Device_commit, Device_wait, destroy, getDevice, derefDevice, derefBuffer,
    derefFilter, derefObject, store, modify, bind, ret, throw, lift.

Lemma is_null_false h : h <> nullptr -> is_null h = false.
Proof. intros H. apply Z.eqb_neq. exact H. Qed.

Lemma checkHandle_ok h w : h <> nullptr -> checkHandle h w = (w, Return tt).
Proof.
  intros H. unfold checkHandle. rewrite is_null_false by exact H. reflexivity.
Qed.

(** One step of a run: reduce the store operations, then resolve the next
    lookup or null test from the hypotheses. *)
Ltac api_step :=
  world_simpl;
  match goal with
  | |- context [<[?h := _]> _ !! ?h] => rewrite lookup_insert_eq
  | |- context [<[?h := _]> _ !! ?k] =>
      rewrite (lookup_insert_ne _ h k) by congruence
  | H : heap ?w !! ?h = Some _ |- context [heap ?w !! ?h] => rewrite H
  | H : ?h <> nullptr |- context [is_null ?h] => rewrite (is_null_false h H)
  | H : ?h <> nullptr |- context [checkHandle ?h ?w] =>
      rewrite (checkHandle_ok h w H)
  end.

Ltac api_run := repeat api_step; world_simpl.

Lemma checkHandle_null w :
  checkHandle nullptr w
  = (w, Throw (Exception Error.InvalidArgument "invalid handle")).
Proof. reflexivity. Qed.

Lemma fresh_handle_spec w :
  fresh_handle w <> nullptr /\ heap w !! fresh_handle w = None.
Proof.
  unfold fresh_handle.
  pose proof (is_fresh ({[nullptr]} ∪ dom (heap w))) as H. split.
  - intros E. apply H. rewrite E. set_solver.
  - apply not_elem_of_dom. set_solver.
Qed.

Lemma fresh_handle_emit ev w : fresh_handle (emit ev w) = fresh_handle w.
Proof. reflexivity. Qed.

Lemma trace_locked device w :
  trace (locked device w) = trace w ++ [EvLock device; EvUnlock device].
Proof. unfold locked. world_simpl. rewrite <- app_assoc. reflexivity. Qed.

(** ** Creating buffers and filters on a device *)

Section ChildCreation.

Variable OIDN_DNNL : bool.

Lemma oidnNewBuffer_uncommitted w h d byteSize :
  h <> nullptr -> heap w !! h = Some (ODevice d) -> dev_committed d = false ->
  oidnNewBuffer OIDN_DNNL h byteSize w
  = (reported h d Error.InvalidOperation not_committed_message (locked h w),
     Return nullptr).
Proof.
  intros Hh Hd Hc. unfold oidnNewBuffer. api_unfold.
  rewrite checkHandle_ok by assumption. rewrite Hd. world_simpl. rewrite Hd, Hc.
  rewrite is_null_false by assumption. world_simpl. rewrite Hd.
  rewrite is_null_false by assumption. world_simpl. rewrite Hd. reflexivity.
Qed.

Lemma oidnNewFilter_uncommitted w h d type :
  h <> nullptr -> heap w !! h = Some (ODevice d) -> dev_committed d = false ->
  oidnNewFilter OIDN_DNNL h type w
  = (reported h d Error.InvalidOperation not_committed_message (locked h w),
     Return nullptr).
Proof.
  intros Hh Hd Hc. unfold oidnNewFilter. api_unfold.
  rewrite checkHandle_ok by assumption. rewrite Hd. world_simpl. rewrite Hd, Hc.
  rewrite is_null_false by assumption. world_simpl. rewrite Hd.
  rewrite is_null_false by assumption. world_simpl. rewrite Hd. reflexivity.
Qed.

Lemma oidnNewBuffer_committed w h d byteSize :
  h <> nullptr -> heap w !! h = Some (ODevice d) -> dev_committed d = true ->
  oidnNewBuffer OIDN_DNNL h byteSize w
  = (emit (EvUnlock h)
       (set_heap (insert h (device_referenced d))
          (set_brk (brk w + byteSize)
             (set_heap
                (insert (fresh_handle w)
                   (OBuffer (mkBuffer 1 h byteSize (brk w) Storage.Host None)))
                (emit (EvLock h) w)))),
     Return (fresh_handle w)).
Proof.
  intros Hh Hd Hc. destruct (fresh_handle_spec w) as [_ Hfresh].
  unfold oidnNewBuffer, Engine_newBuffer, incRef. api_unfold. api_run.
  rewrite Hc. rewrite !fresh_handle_emit. api_run. reflexivity.
Qed.

Lemma oidnNewFilter_committed w h d type :
  h <> nullptr -> heap w !! h = Some (ODevice d) -> dev_committed d = true ->
  oidnNewFilter OIDN_DNNL h type w
  = (emit (EvUnlock h)
       (set_heap (insert h (device_referenced d))
          (set_heap
             (insert (fresh_handle w) (OFilter (mkFilter 1 h type ∅ true [])))
             (emit (EvLock h) w))),
     Return (fresh_handle w)).
Proof.
  intros Hh Hd Hc. destruct (fresh_handle_spec w) as [_ Hfresh].
  unfold oidnNewFilter, Device_newFilter, incRef. api_unfold. api_run.
  rewrite Hc. rewrite !fresh_handle_emit. api_run. reflexivity.
Qed.

Lemma oidnCommitDevice_commits w h d :
  h <> nullptr -> heap w !! h = Some (ODevice d) ->
  oidnCommitDevice OIDN_DNNL h w
  = (emit (EvUnlock h)
       (set_heap (insert h (ODevice (dev_set_committed true d)))
          (emit (EvLock h) w)),
     Return tt).
Proof.
  intros Hh Hd. unfold oidnCommitDevice. api_unfold.
  rewrite checkHandle_ok by assumption. rewrite Hd. world_simpl. rewrite Hd.
  reflexivity.
Qed.

Lemma created_on_fresh w w' h d (o : Object) :
  heap w !! h = Some (ODevice d) ->
  heap w' = <[h := device_referenced d]> (<[fresh_handle w := o]> (heap w)) ->
  trace w' = trace w ++ [EvLock h; EvUnlock h] ->
  creates_object w h (w', Return (fresh_handle w)).
Proof.
  intros Hd Hheap Htrace.
  destruct (fresh_handle_spec w) as [Hnn Hfresh].
  assert (Hne : h <> fresh_handle w) by congruence.
  exists (fresh_handle w). cbn [fst snd].
  split; [reflexivity |]. split; [exact Hnn |]. split; [exact Hfresh |].
  split; [rewrite Hheap, lookup_insert_ne, lookup_insert_eq by exact Hne;
          eauto |].
  split; [exact Htrace |].
  unfold deviceError. rewrite Hheap, lookup_insert_eq, Hd. reflexivity.
Qed.

Lemma oidnNewBuffer_creates w h d byteSize :
  h <> nullptr -> heap w !! h = Some (ODevice d) -> dev_committed d = true ->
  creates_object w h (oidnNewBuffer OIDN_DNNL h byteSize w).
Proof.
  intros Hh Hd Hc. rewrite (oidnNewBuffer_committed w h d) by assumption.
  eapply created_on_fresh; [exact Hd | reflexivity |].
  world_simpl. rewrite <- app_assoc. reflexivity.
Qed.

Lemma oidnNewFilter_creates w h d type :
  h <> nullptr -> heap w !! h = Some (ODevice d) -> dev_committed d = true ->
  creates_object w h (oidnNewFilter OIDN_DNNL h type w).
Proof.
  intros Hh Hd Hc. rewrite (oidnNewFilter_committed w h d) by assumption.
  eapply created_on_fresh; [exact Hd | reflexivity |].
  world_simpl. rewrite <- app_assoc. reflexivity.
Qed.

End ChildCreation.

(** C4. On a device that has not been committed, [oidnNewBuffer] and
    [oidnNewFilter] raise [InvalidOperation] on the device and return the null
    handle; on a committed device, and so after [oidnCommitDevice], both
    return a non-null handle to a new object and report no error. *)
Theorem creation_requires_commit (OIDN_DNNL : bool) (w : World) (hDevice : Z)
    (d : DeviceObj) (byteSize : Z) (type : string) :
  hDevice <> nullptr ->
  heap w !! hDevice = Some (ODevice d) ->
  (dev_committed d = false ->
   exists message,
     let w' := reported hDevice d Error.InvalidOperation message
                 (locked hDevice w) in
     oidnNewBuffer OIDN_DNNL hDevice byteSize w = (w', Return nullptr)
     /\ oidnNewFilter OIDN_DNNL hDevice type w = (w', Return nullptr)
     /\ deviceError w' hDevice = Some (Error.InvalidOperation, message))
  /\ (dev_committed d = true ->
      creates_object w hDevice (oidnNewBuffer OIDN_DNNL hDevice byteSize w)
      /\ creates_object w hDevice (oidnNewFilter OIDN_DNNL hDevice type w))
  /\ (let w1 := (oidnCommitDevice OIDN_DNNL hDevice w).1 in
      creates_object w1 hDevice (oidnNewBuffer OIDN_DNNL hDevice byteSize w1)
      /\ creates_object w1 hDevice (oidnNewFilter OIDN_DNNL hDevice type w1)).
Proof.
  intros Hh Hd. split; [| split].
  - intros Hc. exists not_committed_message. cbv zeta.
    rewrite (oidnNewBuffer_uncommitted OIDN_DNNL w hDevice d) by assumption.
    rewrite (oidnNewFilter_uncommitted OIDN_DNNL w hDevice d) by assumption.
    split; [reflexivity |]. split; [reflexivity |].
    unfold deviceError, reported. world_simpl.
    rewrite lookup_insert_eq. reflexivity.
  - intros Hc. split.
    + apply (oidnNewBuffer_creates OIDN_DNNL w hDevice d); assumption.
    + apply (oidnNewFilter_creates OIDN_DNNL w hDevice d); assumption.
  - rewrite (oidnCommitDevice_commits OIDN_DNNL w hDevice d) by assumption.
    cbv zeta. cbn [fst].
    set (w1 := emit _ _).
    assert (Hd1 : heap w1 !! hDevice
                  = Some (ODevice (dev_set_committed true d))).
    { unfold w1. world_simpl. apply lookup_insert_eq. }
    split.
    + apply (oidnNewBuffer_creates OIDN_DNNL w1 hDevice _ byteSize Hh Hd1).
      reflexivity.
    + apply (oidnNewFilter_creates OIDN_DNNL w1 hDevice _ type Hh Hd1).
      reflexivity.
Qed.

Lemma creation_requires_commit_witness :
  hDeviceC <> nullptr
  /\ heap sample_world !! hDeviceC = Some (ODevice deviceC)
  /\ dev_committed deviceC = false
  /\ (exists message,
        oidnNewBuffer true hDeviceC 1024 sample_world
        = (reported hDeviceC deviceC Error.InvalidOperation message
             (locked hDeviceC sample_world), Return nullptr))
  /\ (let w1 := (oidnCommitDevice true hDeviceC sample_world).1 in
      creates_object w1 hDeviceC (oidnNewBuffer true hDeviceC 1024 w1)).
Proof.
  assert (H1 : hDeviceC <> nullptr) by discriminate.
  assert (H2 : heap sample_world !! hDeviceC = Some (ODevice deviceC))
    by reflexivity.
  destruct (creation_requires_commit true sample_world hDeviceC deviceC 1024 "RT" H1 H2)
    as (Hno & _ & Hafter).
  refine (conj H1 (conj H2 (conj eq_refl (conj _ (proj1 Hafter))))).
  destruct (Hno eq_refl) as (message & Hb & _).
  exists message. exact Hb.
Defined.

(** ** External memory *)

Lemma flag_not_advertised (k types : Z) :
  0 <= k -> (Z.land (2 ^ k) types = 0 <-> Z.testbit types k = false).
Proof.
  intros Hk. split.
  - intros H.
    assert (Hb : Z.testbit (Z.land (2 ^ k) types) k = false)
      by (rewrite H; apply Z.bits_0).
    rewrite Z.land_spec, Z.pow2_bits_true in Hb by exact Hk. exact Hb.
  - intros H. apply Z.bits_inj'. intros n Hn.
    rewrite Z.land_spec, Z.bits_0.
    destruct (Z.eq_dec k n) as [<- | Hne].
    + rewrite H. apply andb_false_r.
    + rewrite Z.pow2_bits_false by exact Hne. reflexivity.
Qed.

Section ExternalMemory.

Variable OIDN_DNNL : bool.
Variables (w : World) (h : Z) (d : DeviceObj).
Hypothesis h_nonnull : h <> nullptr.
Hypothesis h_device : heap w !! h = Some (ODevice d).
Hypothesis h_committed : dev_committed d = true.

Lemma FD_type_refused fdType fd byteSize :
  Z.land fdType (dev_externalMemoryTypes d) = 0 ->
  oidnNewSharedBufferFromFD OIDN_DNNL h fdType fd byteSize w
  = (reported h d Error.InvalidArgument unsupported_type_message (locked h w),
     Return nullptr).
Proof using h_nonnull h_device h_committed.
  intros Hland. unfold oidnNewSharedBufferFromFD. api_unfold.
  rewrite checkHandle_ok by assumption. rewrite h_device. world_simpl.
  rewrite h_device, h_committed. world_simpl.
  rewrite h_device, Hland. cbn [Z.eqb].
  rewrite is_null_false by assumption. world_simpl. rewrite h_device.
  rewrite is_null_false by assumption. world_simpl. rewrite h_device.
  reflexivity.
Qed.

Lemma FD_type_accepted fdType fd byteSize :
  Z.land fdType (dev_externalMemoryTypes d) <> 0 ->
  creates_object w h (oidnNewSharedBufferFromFD OIDN_DNNL h fdType fd byteSize w).
Proof using h_nonnull h_device h_committed.
  intros Hland. unfold oidnNewSharedBufferFromFD. api_unfold.
  rewrite checkHandle_ok by assumption. rewrite h_device. world_simpl.
  rewrite h_device, h_committed. world_simpl.
  rewrite h_device, (proj2 (Z.eqb_neq _ _) Hland).
  destruct (fresh_handle_spec w) as [_ Hfresh].
  unfold Engine_newExternalBuffer, incRef. api_unfold. world_simpl.
  rewrite !fresh_handle_emit. api_run.
  eapply created_on_fresh; [exact h_device | reflexivity |].
  world_simpl. rewrite <- app_assoc. reflexivity.
Qed.

Lemma Win32_type_refused handleType handle name byteSize :
  Z.land handleType (dev_externalMemoryTypes d) = 0 ->
  oidnNewSharedBufferFromWin32Handle OIDN_DNNL h handleType handle name byteSize w
  = (reported h d Error.InvalidArgument unsupported_type_message (locked h w),
     Return nullptr).
Proof using h_nonnull h_device h_committed.
  intros Hland. unfold oidnNewSharedBufferFromWin32Handle. api_unfold.
  rewrite checkHandle_ok by assumption. rewrite h_device. world_simpl.
  rewrite h_device, h_committed. world_simpl.
  rewrite h_device, Hland. cbn [Z.eqb].
  rewrite is_null_false by assumption. world_simpl. rewrite h_device.
  rewrite is_null_false by assumption. world_simpl. rewrite h_device.
  reflexivity.
Qed.

Lemma exactly_one_test handle name :
  (is_null handle && is_null name)
  || (negb (is_null handle) && negb (is_null name)) = false
  <-> exactly_one handle name.
Proof.
  unfold exactly_one, is_null.
  destruct (Z.eqb_spec handle nullptr), (Z.eqb_spec name nullptr); simpl;
    intuition congruence.
Qed.

Lemma Win32_handle_and_name_refused handleType handle name byteSize :
  Z.land handleType (dev_externalMemoryTypes d) <> 0 ->
  ~ exactly_one handle name ->
  oidnNewSharedBufferFromWin32Handle OIDN_DNNL h handleType handle name byteSize w
  = (reported h d Error.InvalidArgument handle_and_name_message (locked h w),
     Return nullptr).
Proof using h_nonnull h_device h_committed.
  intros Hland Hone. unfold oidnNewSharedBufferFromWin32Handle. api_unfold.
  rewrite checkHandle_ok by assumption. rewrite h_device. world_simpl.
  rewrite h_device, h_committed. world_simpl.
  rewrite h_device, (proj2 (Z.eqb_neq _ _) Hland).
  destruct ((is_null handle && is_null name)
            || (negb (is_null handle) && negb (is_null name))) eqn:E.
  - rewrite is_null_false by assumption. world_simpl. rewrite h_device.
    rewrite is_null_false by assumption. world_simpl. rewrite h_device.
    reflexivity.
  - exfalso. apply Hone. apply exactly_one_test. exact E.
Qed.

Lemma Win32_accepted handleType handle name byteSize :
  Z.land handleType (dev_externalMemoryTypes d) <> 0 ->
  exactly_one handle name ->
  creates_object w h
    (oidnNewSharedBufferFromWin32Handle OIDN_DNNL h handleType handle name
       byteSize w).
Proof using h_nonnull h_device h_committed.
  intros Hland Hone. unfold oidnNewSharedBufferFromWin32Handle. api_unfold.
  rewrite checkHandle_ok by assumption. rewrite h_device. world_simpl.
  rewrite h_device, h_committed. world_simpl.
  rewrite h_device, (proj2 (Z.eqb_neq _ _) Hland).
  rewrite (proj2 (exactly_one_test handle name) Hone).
  destruct (fresh_handle_spec w) as [_ Hfresh].
  unfold Engine_newExternalBuffer, incRef. api_unfold. world_simpl.
  rewrite !fresh_handle_emit. api_run.
  eapply created_on_fresh; [exact h_device | reflexivity |].
  world_simpl. rewrite <- app_assoc. reflexivity.
Qed.

End ExternalMemory.

(** C7. On a committed device, importing an external buffer fails with
    [InvalidArgument] when the requested external memory type is not among
    the types the device advertises, from a file descriptor and from a Win32
    handle alike; the Win32 variant also fails with [InvalidArgument] unless
    exactly one of the handle and the name is non-null.  An advertised type
    (with exactly one of handle and name, for Win32) gets its buffer. *)
Theorem external_memory_checks (OIDN_DNNL : bool) (w : World) (hDevice : Z)
    (d : DeviceObj) (type fd handle name byteSize : Z) :
  hDevice <> nullptr ->
  heap w !! hDevice = Some (ODevice d) ->
  dev_committed d = true ->
  let refused message :=
    (reported hDevice d Error.InvalidArgument message (locked hDevice w),
     Return nullptr) in
  (Z.land type (dev_externalMemoryTypes d) = 0 ->
   oidnNewSharedBufferFromFD OIDN_DNNL hDevice type fd byteSize w
   = refused unsupported_type_message
   /\ oidnNewSharedBufferFromWin32Handle OIDN_DNNL hDevice type handle name
        byteSize w
      = refused unsupported_type_message)
  /\ (forall k, 0 <= k -> type = 2 ^ k ->
      Z.testbit (dev_externalMemoryTypes d) k = false ->
      Z.land type (dev_externalMemoryTypes d) = 0)
  /\ (Z.land type (dev_externalMemoryTypes d) <> 0 ->
      ~ exactly_one handle name ->
      oidnNewSharedBufferFromWin32Handle OIDN_DNNL hDevice type handle name
        byteSize w
      = refused handle_and_name_message)
  /\ (Z.land type (dev_externalMemoryTypes d) <> 0 ->
      creates_object w hDevice
        (oidnNewSharedBufferFromFD OIDN_DNNL hDevice type fd byteSize w)
      /\ (exactly_one handle name ->
          creates_object w hDevice
            (oidnNewSharedBufferFromWin32Handle OIDN_DNNL hDevice type handle
               name byteSize w))).
Proof.
  intros Hh Hd Hc refused. unfold refused. split; [| split; [| split]].
  - intros Hland. split.
    + apply FD_type_refused; assumption.
    + apply Win32_type_refused; assumption.
  - intros k Hk -> Hbit. apply flag_not_advertised; assumption.
  - intros Hland Hone. apply Win32_handle_and_name_refused; assumption.
  - intros Hland. split.
    + apply (FD_type_accepted OIDN_DNNL w hDevice d); assumption.
    + intros Hone. apply (Win32_accepted OIDN_DNNL w hDevice d); assumption.
Qed.

Lemma external_memory_checks_witness :
  (* device A advertises type 1 only: type 2 is refused, and type 1 with both
     a handle and a name is refused *)
  oidnNewSharedBufferFromFD true hDeviceA 2 5 4096 sample_world
  = (reported hDeviceA deviceA Error.InvalidArgument unsupported_type_message
       (locked hDeviceA sample_world), Return nullptr)
  /\ oidnNewSharedBufferFromWin32Handle true hDeviceA 1 7 9 4096 sample_world
     = (reported hDeviceA deviceA Error.InvalidArgument handle_and_name_message
          (locked hDeviceA sample_world), Return nullptr).
Proof.
  assert (H1 : hDeviceA <> nullptr) by discriminate.
  assert (H2 : heap sample_world !! hDeviceA = Some (ODevice deviceA))
    by reflexivity.
  assert (H3 : dev_committed deviceA = true) by reflexivity.
  split.
  - destruct (external_memory_checks true sample_world hDeviceA deviceA
                2 5 0 0 4096 H1 H2 H3) as (Hrefused & _).
    exact (proj1 (Hrefused eq_refl)).
  - destruct (external_memory_checks true sample_world hDeviceA deviceA
                1 0 7 9 4096 H1 H2 H3) as (_ & _ & Hboth & _).
    apply Hboth; [discriminate |].
    unfold exactly_one. intros [[_ E] | [E _]]; discriminate.
Defined.

(** ** References that are given back *)

Lemma gives_back_refl w : gives_back w w.
Proof.
  split; [exists []; split; [symmetry; apply app_nil_r | reflexivity] |].
  split; [auto |]. split; [auto |]. split; reflexivity.
Qed.

Lemma gives_back_trans w1 w2 w3 :
  gives_back w1 w2 -> gives_back w2 w3 -> gives_back w1 w3.
Proof.
  intros ((l1 & Ht1 & Hl1) & Hn1 & Hf1 & Hb1 & He1)
         ((l2 & Ht2 & Hl2) & Hn2 & Hf2 & Hb2 & He2).
  split.
  - exists (l1 ++ l2). split.
    + rewrite Ht2, Ht1, app_assoc. reflexivity.
    + rewrite forallb_app, Hl1, Hl2. reflexivity.
  - split; [auto |]. split; [auto |]. split; congruence.
Qed.

Lemma gives_back_destroy w h :
  (forall f, heap w !! h <> Some (OFilter f)) ->
  gives_back w (emit (EvDestroy h) (set_heap (delete h) w)).
Proof.
  intros Hh. split; [exists [EvDestroy h]; split; reflexivity |].
  world_simpl. split; [| split; [| split; reflexivity]].
  - intros k Hk. destruct (Z.eq_dec h k) as [<- | Hne].
    + apply lookup_delete_eq.
    + rewrite lookup_delete_ne by exact Hne. exact Hk.
  - intros k f Hk. rewrite lookup_delete_ne; [exact Hk |].
    intros <-. exact (Hh f Hk).
Qed.

Lemma gives_back_update w h o o' :
  heap w !! h = Some o -> (forall f, o <> OFilter f) ->
  gives_back w (set_heap (insert h o') w).
Proof.
  intros Ho Hh. split; [exists []; split; [symmetry; apply app_nil_r |
                                          reflexivity] |].
  world_simpl. split; [| split; [| split; reflexivity]].
  - intros k Hk. rewrite lookup_insert_ne; [exact Hk | congruence].
  - intros k f Hk. rewrite lookup_insert_ne; [exact Hk |].
    intros <-. rewrite Ho in Hk. injection Hk as ->. exact (Hh f eq_refl).
Qed.

Lemma Ref_Device_release_gives_back device w :
  exists w', Ref_Device_release device w = (w', Return tt) /\ gives_back w w'.
Proof.
  unfold Ref_Device_release.
  destruct (heap w !! device) as [[d | b | f] |] eqn:Hd;
    try (eexists; split; [reflexivity | apply gives_back_refl]).
  destruct (size_add (dev_refCount d) (-1) =? 0); eexists;
    (split; [reflexivity |]).
  - apply gives_back_destroy. congruence.
  - apply (gives_back_update w device (ODevice d)); [exact Hd | discriminate].
Qed.

Lemma Ref_Buffer_release_gives_back hBuffer w :
  exists w', Ref_Buffer_release hBuffer w = (w', Return tt) /\ gives_back w w'.
Proof.
  unfold Ref_Buffer_release.
  destruct (heap w !! hBuffer) as [[d | b | f] |] eqn:Hb;
    try (eexists; split; [reflexivity | apply gives_back_refl]).
  destruct (size_add (buf_refCount b) (-1) =? 0).
  - destruct (Ref_Device_release_gives_back (buf_device b)
                (emit (EvDestroy hBuffer) (set_heap (delete hBuffer) w)))
      as (w' & Hrun & Hgb).
    exists w'. split; [exact Hrun |].
    eapply gives_back_trans; [| exact Hgb].
    apply gives_back_destroy. congruence.
  - eexists. split; [reflexivity |].
    apply (gives_back_update w hBuffer (OBuffer b)); [exact Hb | discriminate].
Qed.

Lemma Image_release_gives_back image w :
  exists w', Image_release image w = (w', Return tt) /\ gives_back w w'.
Proof.
  unfold Image_release. destruct (buffer image) as [hBuffer |].
  - apply Ref_Buffer_release_gives_back.
  - exists w. split; [reflexivity | apply gives_back_refl].
Qed.


Lemma teardown_reports_nothing (l : list Event) :
  forallb is_Destroy l = true -> List.filter is_SetError l = [].
Proof.
  induction l as [| ev l IH]; [reflexivity |].
  cbn [forallb]. intros H. apply andb_true_iff in H as [Hev Hl].
  destruct ev; try discriminate Hev. cbn. apply IH. exact Hl.
Qed.

(** ** Images and filters on different devices *)

Lemma errors_since_app w w' (l : list Event) :
  trace w' = trace w ++ l -> errors_since w w' = List.filter is_SetError l.
Proof.
  intros H. unfold errors_since. rewrite H, drop_app_length. reflexivity.
Qed.

Section SetFilterImage.

Variables (maxDim : Z) (OIDN_DNNL : bool).
Variables (w : World) (hFilter hBuffer : Z).
Variables (f : FilterObj) (b : BufferObj) (d : DeviceObj).
Hypothesis hFilter_nonnull : hFilter <> nullptr.
Hypothesis hBuffer_nonnull : hBuffer <> nullptr.
Hypothesis device_nonnull : flt_device f <> nullptr.
Hypothesis hFilter_live : heap w !! hFilter = Some (OFilter f).
Hypothesis hBuffer_live : heap w !! hBuffer = Some (OBuffer b).
Hypothesis device_live : heap w !! flt_device f = Some (ODevice d).

Lemma oidnSetFilterImage_different_devices name fmt width height byteOffset
    ps rs :
  buf_device b <> flt_device f ->
  oidnSetFilterImage maxDim OIDN_DNNL hFilter name hBuffer fmt width height
    byteOffset ps rs w
  = (reported (flt_device f) d Error.InvalidArgument different_devices_message
       (locked (flt_device f) w),
     Return tt).
Proof using hFilter_nonnull hBuffer_nonnull device_nonnull hFilter_live
  hBuffer_live device_live.
  intros Hne. unfold oidnSetFilterImage. api_unfold. api_run.
  rewrite (proj2 (Z.eqb_neq _ _) Hne). cbn [negb]. api_run.
  reflexivity.
Qed.

Lemma Image_release_returns image w0 : (Image_release image w0).2 = Return tt.
Proof.
  destruct (Image_release_gives_back image w0) as (w1 & Hrun & _).
  rewrite Hrun. reflexivity.
Qed.

Lemma replaced_released_gives_back name w0 :
  exists w1, replaced_released f name w0 = emit (EvUnlock (flt_device f)) w1
             /\ gives_back w0 w1.
Proof.
  unfold replaced_released. destruct (flt_images f !! name) as [replaced |].
  - destruct (Image_release_gives_back replaced w0) as (w1 & Hrun & Hgb).
    exists w1. rewrite Hrun. split; [reflexivity | exact Hgb].
  - exists w0. split; [reflexivity | apply gives_back_refl].
Qed.

Lemma Filter_setImage_run name image w0 :
  heap w0 !! hFilter = Some (OFilter f) ->
  lock_guard (flt_device f) (Filter_setImage hFilter name image) w0
  = (replaced_released f name
       (slot_set hFilter f name image (emit (EvLock (flt_device f)) w0)),
     Return tt).
Proof.
  intros Hf. unfold lock_guard, Filter_setImage, derefFilter, store, modify,
    bind.
  world_simpl. rewrite Hf. unfold replaced_released, slot_set, with_image.
  destruct (flt_images f !! name) as [replaced |]; [| reflexivity].
  pose proof (Image_release_returns replaced
                (set_heap
                   (insert hFilter
                      (OFilter (mkFilter (flt_refCount f) (flt_device f)
                                  (flt_type f)
                                  (<[name := image]> (flt_images f)) true
                                  (flt_pending f))))
                   (emit (EvLock (flt_device f)) w0))) as Hret.
  destruct (Image_release replaced _) as [w1 r]. cbn [snd] in Hret.
  subst r. reflexivity.
Qed.

Lemma oidnSetFilterImage_same_device name fmt width height byteOffset ps rs
    image :
  buf_device b = flt_device f ->
  Image_ctor_buffer maxDim hBuffer (buf_byteSize b) (buf_data b) fmt
    (int_arg width) (int_arg height) byteOffset ps rs = inr image ->
  oidnSetFilterImage maxDim OIDN_DNNL hFilter name hBuffer fmt width height
    byteOffset ps rs w
  = (replaced_released f name
       (slot_set hFilter f name image
          (set_heap (insert hBuffer (buffer_referenced b))
             (emit (EvLock (flt_device f)) w))),
     Return tt).
Proof using hFilter_nonnull hBuffer_nonnull hFilter_live hBuffer_live.
  intros Heq Himg.
  assert (Hne : hBuffer <> hFilter) by congruence.
  set (w0 := set_heap (insert hBuffer (buffer_referenced b)) w).
  assert (Hf0 : heap w0 !! hFilter = Some (OFilter f)).
  { unfold w0. world_simpl. rewrite lookup_insert_ne by exact Hne.
    exact hFilter_live. }
  pose proof (Filter_setImage_run name image w0 Hf0) as Hset.
  change (emit (EvLock (flt_device f)) w0)
    with (set_heap (insert hBuffer (buffer_referenced b))
            (emit (EvLock (flt_device f)) w)) in Hset.
  unfold lock_guard in Hset.
  unfold oidnSetFilterImage, OIDN_TRY_CATCH, OIDN_LOCK, bind at 1 2 3.
  rewrite !checkHandle_ok by assumption.
  unfold getDevice. rewrite hFilter_live. unfold lock_guard.
  assert (Hblock :
    (let* b0 := derefBuffer hBuffer in
     let* f0 := derefFilter hFilter in
     if negb (buf_device b0 =? flt_device f0)
     then throw (Exception Error.InvalidArgument
                   "the specified objects are bound to different devices")
     else
       let* image0 :=
         lift (Image_ctor_buffer maxDim hBuffer (buf_byteSize b0)
                 (buf_data b0) fmt (int_arg width) (int_arg height)
                 byteOffset ps rs) in
       incRef hBuffer >> Filter_setImage hFilter name image0)
      (emit (EvLock (flt_device f)) w)
    = Filter_setImage hFilter name image (emit (EvLock (flt_device f)) w0)).
  { unfold derefBuffer, derefFilter, incRef, derefObject, store, modify, bind,
      lift, ret.
    world_simpl. rewrite hBuffer_live. world_simpl. rewrite hFilter_live.
    world_simpl. rewrite Heq, Z.eqb_refl. cbn [negb]. rewrite Himg.
    world_simpl. rewrite hBuffer_live. reflexivity. }
  rewrite Hblock.
  destruct (Filter_setImage hFilter name image _) as [w1 [[] | e |]];
    try discriminate Hset.
  exact Hset.
Qed.

End SetFilterImage.

(** C6. [oidnSetFilterImage] with a buffer whose device is not the filter's
    device raises [InvalidArgument] on the filter's device, with a message
    that mentions "different devices", and leaves the filter as it was; so a
    call that reports no error had a buffer on the filter's device, and such
    a call binds the image it built to the named slot. *)
Theorem set_filter_image_same_device (maxDim : Z) (OIDN_DNNL : bool)
    (w : World) (hFilter hBuffer : Z) (f : FilterObj) (b : BufferObj)
    (d : DeviceObj) (name : string) (fmt : Format.t)
    (width height byteOffset ps rs : Z) :
  hFilter <> nullptr -> hBuffer <> nullptr -> flt_device f <> nullptr ->
  heap w !! hFilter = Some (OFilter f) ->
  heap w !! hBuffer = Some (OBuffer b) ->
  heap w !! flt_device f = Some (ODevice d) ->
  let r := oidnSetFilterImage maxDim OIDN_DNNL hFilter name hBuffer fmt width
             height byteOffset ps rs w in
  (buf_device b <> flt_device f ->
   r = (reported (flt_device f) d Error.InvalidArgument
          different_devices_message (locked (flt_device f) w),
        Return tt)
   /\ deviceError r.1 (flt_device f)
      = Some (Error.InvalidArgument, different_devices_message)
   /\ different_devices_message
      = ("the specified objects are bound to " +:+ "different devices")
   /\ heap r.1 !! hFilter = Some (OFilter f))
  /\ (errors_since w r.1 = [] -> buf_device b = flt_device f)
  /\ (buf_device b = flt_device f ->
      forall image,
        Image_ctor_buffer maxDim hBuffer (buf_byteSize b) (buf_data b) fmt
          (int_arg width) (int_arg height) byteOffset ps rs = inr image ->
        r.2 = Return tt
        /\ errors_since w r.1 = []
        /\ exists f', heap r.1 !! hFilter = Some (OFilter f')
                      /\ flt_images f' = <[name := image]> (flt_images f)).
Proof.
  intros Hf Hb Hdn Hfl Hbl Hdl r.
  assert (Hdiff : buf_device b <> flt_device f ->
                  r = (reported (flt_device f) d Error.InvalidArgument
                         different_devices_message (locked (flt_device f) w),
                       Return tt)).
  { intros Hne. unfold r.
    apply (oidnSetFilterImage_different_devices maxDim OIDN_DNNL w hFilter
             hBuffer f b d); assumption. }
  split; [| split].
  - intros Hne. rewrite (Hdiff Hne). cbn [fst].
    split; [reflexivity |].
    unfold deviceError, reported. world_simpl.
    split; [rewrite lookup_insert_eq; reflexivity |].
    split; [reflexivity |].
    rewrite lookup_insert_ne by congruence. exact Hfl.
  - intros Hnone. destruct (Z.eq_dec (buf_device b) (flt_device f)) as [E | Hne];
      [exact E | exfalso].
    rewrite (Hdiff Hne) in Hnone. cbn [fst] in Hnone.
    rewrite (errors_since_app w _
               [EvLock (flt_device f); EvUnlock (flt_device f);
                EvSetError (flt_device f) Error.InvalidArgument
                  different_devices_message]) in Hnone.
    + discriminate Hnone.
    + unfold reported, locked. world_simpl. rewrite <- !app_assoc. reflexivity.
  - intros Heq image Himg. unfold r.
    rewrite (oidnSetFilterImage_same_device maxDim OIDN_DNNL w hFilter hBuffer
               f b Hf Hb Hfl Hbl name fmt width height byteOffset ps rs image
               Heq Himg).
    destruct (replaced_released_gives_back f name
                (slot_set hFilter f name image
                   (set_heap (insert hBuffer (buffer_referenced b))
                      (emit (EvLock (flt_device f)) w))))
      as (w1 & -> & (rest & Htrace & Hrest) & _ & Hfilters & _).
    cbn [fst snd]. split; [reflexivity |]. split.
    + rewrite (errors_since_app w _
                 ([EvLock (flt_device f)] ++ rest ++ [EvUnlock (flt_device f)])).
      * rewrite !List.filter_app, (teardown_reports_nothing rest Hrest).
        reflexivity.
      * world_simpl. rewrite Htrace. unfold slot_set. world_simpl.
        rewrite <- !app_assoc. reflexivity.
    + exists (with_image f name image). world_simpl.
      split; [| reflexivity].
      apply Hfilters. unfold slot_set. world_simpl. apply lookup_insert_eq.
Qed.

Lemma set_filter_image_same_device_witness :
  (* the buffer lives on device A, the filter on device B *)
  oidnSetFilterImage sample_maxDim true hFilterB "color" hBufferA
    Format.Float3 16 16 0 0 0 sample_world
  = (reported hDeviceB deviceB Error.InvalidArgument different_devices_message
       (locked hDeviceB sample_world),
     Return tt).
Proof.
  assert (H1 : hFilterB <> nullptr) by discriminate.
  assert (H2 : hBufferA <> nullptr) by discriminate.
  assert (H0 : flt_device filterB <> nullptr) by discriminate.
  assert (H3 : heap sample_world !! hFilterB = Some (OFilter filterB))
    by reflexivity.
  assert (H4 : heap sample_world !! hBufferA = Some (OBuffer bufferA))
    by reflexivity.
  assert (H5 : heap sample_world !! flt_device filterB = Some (ODevice deviceB))
    by reflexivity.
  destruct (set_filter_image_same_device sample_maxDim true sample_world
              hFilterB hBufferA filterB bufferA deviceB "color" Format.Float3
              16 16 0 0 0 H1 H2 H0 H3 H4 H5) as (Hdiff & _).
  assert (H6 : buf_device bufferA <> flt_device filterB) by discriminate.
  exact (proj1 (Hdiff H6)).
Defined.

(** ** The completion event of an asynchronous SYCL execution *)

Section SYCLExecute.

Variable OIDN_DNNL : bool.
Variables (w : World) (hFilter : Z) (f : FilterObj) (d : DeviceObj).
Variables (depEvents : list sycl_event) (numDepEvents : Z).
Hypothesis hFilter_nonnull : hFilter <> nullptr.
Hypothesis device_nonnull : flt_device f <> nullptr.
Hypothesis hFilter_live : heap w !! hFilter = Some (OFilter f).
Hypothesis device_live : heap w !! flt_device f = Some (ODevice d).
Hypothesis device_SYCL : dev_isSYCL d = true.
Hypothesis filter_committed : flt_dirty f = false.
Hypothesis numDepEvents_ok : 0 <= numDepEvents.

Lemma oidnExecuteSYCLFilterAsync_run :
  oidnExecuteSYCLFilterAsync OIDN_DNNL hFilter depEvents numDepEvents true w
  = match flt_pending f with
    | [e] => (enqueued_world w f d depEvents numDepEvents, Return (Some e))
    | [] => (enqueued_world w f d depEvents numDepEvents,
             Return (Some default_event))
    | _ => (reported (flt_device f)
              (enqueued_device f d depEvents numDepEvents) Error.Unknown
              missing_barrier_message
              (enqueued_world w f d depEvents numDepEvents),
            Return None)
    end.
Proof using hFilter_nonnull device_nonnull hFilter_live device_live
  device_SYCL filter_committed numDepEvents_ok.
  assert (Hne : flt_device f <> hFilter) by congruence.
  unfold oidnExecuteSYCLFilterAsync, setDepEvents, Filter_execute,
    getDoneEvents.
  api_unfold. api_run.
  rewrite (proj2 (Z.ltb_ge _ _) numDepEvents_ok). api_run.
  rewrite device_SYCL. cbn [negb]. api_run.
  rewrite filter_committed. api_run.
  unfold enqueued_world, enqueued_device, reported.
  destruct (flt_pending f) as [| e1 [| e2 rest]]; api_run;
    unfold set_heap, emit; world_simpl; rewrite ?insert_insert_eq;
    reflexivity.
Qed.

End SYCLExecute.

(** C8. [oidnExecuteSYCLFilterAsync] on a committed filter of a SYCL device,
    with a non-null [doneEvent]: when the engine left exactly one completion
    event, that event is written; when it left none, the default-constructed
    empty event is written; when it left more than one, nothing is written
    and the logic error "missing barrier after filter kernels" is reported on
    the filter's device with kind [Unknown]. *)
Theorem sycl_done_event (OIDN_DNNL : bool) (w : World) (hFilter : Z)
    (f : FilterObj) (d : DeviceObj) (depEvents : list sycl_event)
    (numDepEvents : Z) :
  hFilter <> nullptr -> flt_device f <> nullptr ->
  heap w !! hFilter = Some (OFilter f) ->
  heap w !! flt_device f = Some (ODevice d) ->
  dev_isSYCL d = true -> flt_dirty f = false -> 0 <= numDepEvents ->
  let r := oidnExecuteSYCLFilterAsync OIDN_DNNL hFilter depEvents
             numDepEvents true w in
  let done := enqueued_world w f d depEvents numDepEvents in
  (forall e, flt_pending f = [e] -> r = (done, Return (Some e)))
  /\ (flt_pending f = [] -> r = (done, Return (Some default_event)))
  /\ ((1 < length (flt_pending f))%nat ->
      r = (reported (flt_device f)
             (enqueued_device f d depEvents numDepEvents) Error.Unknown
             missing_barrier_message done,
           Return None)
      /\ deviceError r.1 (flt_device f)
         = Some (Error.Unknown, missing_barrier_message)
      /\ OIDN_CATCH OIDN_DNNL (std_exception missing_barrier_message)
         = (Error.Unknown, missing_barrier_message))
  /\ errors_since w done = [].
Proof.
  intros H1 H2 H3 H4 H5 H6 H7 r done. unfold r, done.
  rewrite (oidnExecuteSYCLFilterAsync_run OIDN_DNNL w hFilter f d depEvents
             numDepEvents H1 H2 H3 H4 H5 H6 H7).
  split; [| split; [| split]].
  - intros e ->. reflexivity.
  - intros ->. reflexivity.
  - intros Hlen. destruct (flt_pending f) as [| e1 [| e2 rest]];
      [simpl in Hlen; lia | simpl in Hlen; lia |].
    split; [reflexivity |]. split; [| reflexivity].
    unfold deviceError, reported. world_simpl.
    rewrite lookup_insert_eq. reflexivity.
  - rewrite (errors_since_app w _
               [EvLock (flt_device f); EvUnlock (flt_device f)]);
      [reflexivity |].
    unfold enqueued_world. world_simpl. rewrite <- !app_assoc. reflexivity.
Qed.

Lemma sycl_done_event_witness :
  oidnExecuteSYCLFilterAsync true hFilterB [] 0 true sample_world
  = (enqueued_world sample_world filterB deviceB [] 0,
     Return (Some (queue_event 7))).
Proof.
  assert (H1 : hFilterB <> nullptr) by discriminate.
  assert (H2 : flt_device filterB <> nullptr) by discriminate.
  assert (H3 : heap sample_world !! hFilterB = Some (OFilter filterB))
    by reflexivity.
  assert (H4 : heap sample_world !! flt_device filterB = Some (ODevice deviceB))
    by reflexivity.
  assert (H5 : dev_isSYCL deviceB = true) by reflexivity.
  assert (H6 : flt_dirty filterB = false) by reflexivity.
  assert (H7 : 0 <= 0) by discriminate.
  exact (proj1 (sycl_done_event true sample_world hFilterB filterB deviceB
                  [] 0 H1 H2 H3 H4 H5 H6 H7) (queue_event 7) eq_refl).
Defined.

(** ** Releasing an object *)





Section Release.

Variable OIDN_DNNL : bool.
Variables (w : World) (obj : Z) (o : Object).
Hypothesis obj_nonnull : obj <> nullptr.
Hypothesis obj_live : heap w !! obj = Some o.




End Release.



(** ** Exceptions at the API boundary *)

Section TryCatch.

Variable OIDN_DNNL : bool.
Context {A : Type}.
Variables (obj : Z) (block : M A) (sentinel : A).
Variables (w w1 : World) (e : Thrown).
Hypothesis block_throws : block w = (w1, Throw e).



End TryCatch.

Lemma OIDN_TRY_CATCH_returns (OIDN_DNNL : bool) {A} (obj : Z) (block : M A)
    (sentinel : A) (w w1 : World) (a : A) :
  block w = (w1, Return a) ->
  OIDN_TRY_CATCH OIDN_DNNL obj block sentinel w = (w1, Return a).
Proof. intros H. unfold OIDN_TRY_CATCH. rewrite H. reflexivity. Qed.



(** ** Images over a null pointer *)

(** The test of the raw-pointer constructor on a null pointer, once the
    descriptor is built. *)
Lemma Image_ctor_ptr_null maxDim fmt width height byteOffset ps rs d :
  ImageDesc_ctor maxDim fmt width height ps rs = inr d ->
  Image_ctor_ptr maxDim nullptr fmt width height byteOffset ps rs
  = if 0 <? size_add byteOffset (getByteSize d)
    then inl (Exception Error.InvalidArgument "buffer region out of range")
    else inr (mkImage d (ptr_add nullptr byteOffset) None).
Proof. intros Hd. unfold Image_ctor_ptr. rewrite Hd. reflexivity. Qed.

(** Without wrap-around the constructor accepts a null pointer only for an
    empty region at offset zero. *)
Lemma Image_ctor_ptr_null_exact maxDim fmt width height byteOffset ps rs d :
  ImageDesc_ctor maxDim fmt width height ps rs = inr d ->
  0 <= byteOffset -> byteOffset + getByteSize d < SIZE_MOD ->
  (byteOffset + getByteSize d = 0 ->
   Image_ctor_ptr maxDim nullptr fmt width height byteOffset ps rs
   = inr (mkImage d nullptr None))
  /\ (byteOffset + getByteSize d <> 0 ->
      Image_ctor_ptr maxDim nullptr fmt width height byteOffset ps rs
      = inl (Exception Error.InvalidArgument "buffer region out of range")).
Proof.
  intros Hd Hoff Hfit.
  rewrite (Image_ctor_ptr_null maxDim fmt width height byteOffset ps rs d Hd).
  assert (Hsize : 0 <= getByteSize d)
    by (unfold getByteSize, size_mul; apply size_wrap_range).
  rewrite size_add_exact by lia. split.
  - intros Hz. rewrite Hz. cbn [Z.ltb Z.compare].
    assert (byteOffset = 0) as -> by lia. reflexivity.
  - intros Hnz. rewrite (proj2 (Z.ltb_lt _ _)) by lia. reflexivity.
Qed.

(** C10 at the input where the sum wraps: a null pointer, a one-pixel
    [Float] image (4 bytes) and the byte offset [2^64 - 4].  The sum
    [byteOffset + getByteSize()] is 0 modulo [2^64], no exception is thrown,
    and [oidnSetSharedFilterImage] binds an image whose pointer is
    [2^64 - 4]. *)
Theorem null_pointer_offset_wraps :
  size_add (SIZE_MOD - 4) (getByteSize (desc wrapped_image)) = 0
  /\ Image_ctor_ptr sample_maxDim nullptr Format.Float 1 1 (SIZE_MOD - 4) 0 0
     = inr wrapped_image
  /\ oidnSetSharedFilterImage sample_maxDim true hFilterA "color" nullptr
       Format.Float 1 1 (SIZE_MOD - 4) 0 0 sample_world
     = (emit (EvUnlock hDeviceA)
          (set_heap
             (insert hFilterA
                (OFilter (mkFilter 1 hDeviceA "RT"
                            (<["color" := wrapped_image]> ∅) true [])))
             (emit (EvLock hDeviceA) sample_world)),
        Return tt).
Proof. by_compute. Qed.

(** * Further properties of the image code *)

(** [overlaps] does not depend on the order of the two images. *)
Theorem overlaps_symmetric (i j : Image) : overlaps i j = overlaps j i.
Proof.
  unfold overlaps. rewrite (orb_comm (is_null (ptr i))).
  destruct (is_null (ptr j) || is_null (ptr i)); [reflexivity |].
  rewrite (bool_decide_ext (buffer i = buffer j) (buffer j = buffer i))
    by (split; congruence).
  destruct (bool_decide (buffer j = buffer i)); [| reflexivity].
  cbn [negb]. apply andb_comm.
Qed.

Lemma size_wrap_nonneg x : 0 <= size_wrap x.
Proof. apply size_wrap_range. Qed.

Lemma getFormatSize_nonneg f : 0 <= getFormatSize f.
Proof. apply getFormatSize_range. Qed.

(** What the constructor checked before it returned a descriptor. *)
Lemma ImageDesc_ctor_bounds (maxDim : Z) (f : Format.t) (w h ps rs : Z)
    (d : ImageDesc) :
  ImageDesc_ctor maxDim f w h ps rs = inr d ->
  width d = w /\ height d = h /\ format d = f
  /\ w <= maxDim /\ h <= maxDim
  /\ size_mul (size_mul w h) (getC f) <= INT_MAX
  /\ getFormatSize f <= wByteStride d
  /\ size_mul w (wByteStride d) <= hByteStride d.
Proof.
  unfold ImageDesc_ctor.
  destruct ((maxDim <? w) || (maxDim <? h)
            || (INT_MAX <? size_mul (size_mul w h) (getC f))) eqn:E;
    [discriminate |].
  apply orb_false_iff in E as [E E3]. apply orb_false_iff in E as [E1 E2].
  apply Z.ltb_ge in E1, E2, E3.
  pose proof (getFormatSize_range f) as Hfs.
  destruct (negb (ps =? 0)).
  - destruct (Z.ltb_spec ps (getFormatSize f)); [discriminate |].
    destruct (negb (rs =? 0)).
    + destruct (Z.ltb_spec rs (size_mul w ps)); [discriminate |].
      intros [= <-]. cbn. repeat split; lia.
    + intros [= <-]. cbn. repeat split; lia.
  - destruct (negb (rs =? 0)).
    + destruct (Z.ltb_spec rs (size_mul w (getFormatSize f)));
        [discriminate |].
      intros [= <-]. cbn. repeat split; lia.
    + intros [= <-]. cbn. repeat split; lia.
Qed.

(** A descriptor that the constructor returns keeps the size and the format
    it was given, passed the size test, and has a pixel stride of at least
    the pixel size and a row stride of at least the [size_t] product of the
    width and the pixel stride; explicit strides are taken as given. *)
Theorem ImageDesc_ctor_invariant (maxDim : Z) (f : Format.t) (w h ps rs : Z)
    (d : ImageDesc) :
  ImageDesc_ctor maxDim f w h ps rs = inr d ->
  width d = w /\ height d = h /\ format d = f
  /\ w <= maxDim /\ h <= maxDim
  /\ size_mul (size_mul w h) (getC f) <= INT_MAX
  /\ getFormatSize f <= wByteStride d
  /\ size_mul w (wByteStride d) <= hByteStride d
  /\ (ps <> 0 -> wByteStride d = ps)
  /\ (ps = 0 -> wByteStride d = getFormatSize f)
  /\ (rs <> 0 -> hByteStride d = rs)
  /\ (rs = 0 -> hByteStride d = size_mul w (wByteStride d)).
Proof.
  unfold ImageDesc_ctor.
  destruct ((maxDim <? w) || (maxDim <? h)
            || (INT_MAX <? size_mul (size_mul w h) (getC f))) eqn:E;
    [discriminate |].
  apply orb_false_iff in E as [E E3]. apply orb_false_iff in E as [E1 E2].
  apply Z.ltb_ge in E1, E2, E3.
  destruct (Z.eqb_spec ps 0) as [Hps | Hps]; cbn [negb].
  - destruct (Z.eqb_spec rs 0) as [Hrs | Hrs]; cbn [negb].
    + intros [= <-]. cbn. repeat split; try lia; congruence.
    + destruct (Z.ltb_spec rs (size_mul w (getFormatSize f))); [discriminate |].
      intros [= <-]. cbn. repeat split; try lia; congruence.
  - destruct (Z.ltb_spec ps (getFormatSize f)); [discriminate |].
    destruct (Z.eqb_spec rs 0) as [Hrs | Hrs]; cbn [negb].
    + intros [= <-]. cbn. repeat split; try lia; congruence.
    + destruct (Z.ltb_spec rs (size_mul w ps)); [discriminate |].
      intros [= <-]. cbn. repeat split; try lia; congruence.
Qed.

Lemma ImageDesc_ctor_invariant_witness :
  ImageDesc_ctor sample_maxDim Format.Half4 640 480 16 0
  = inr (mkImageDesc 640 480 Format.Half4 16 10240)
  /\ getFormatSize Format.Half4 <= 16
  /\ size_mul 640 16 <= 10240.
Proof.
  assert (H : ImageDesc_ctor sample_maxDim Format.Half4 640 480 16 0
              = inr (mkImageDesc 640 480 Format.Half4 16 10240))
    by reflexivity.
  destruct (ImageDesc_ctor_invariant sample_maxDim Format.Half4 640 480 16 0
              _ H) as (_ & _ & _ & _ & _ & _ & Hw & Hh & _).
  exact (conj H (conj Hw Hh)).
Defined.

(** Building a descriptor again from the fields of a descriptor that the
    constructor returned gives the same descriptor: an accepted descriptor is
    accepted as it is. *)
Theorem ImageDesc_ctor_round_trip (maxDim : Z) (f : Format.t) (w h ps rs : Z)
    (d : ImageDesc) :
  ImageDesc_ctor maxDim f w h ps rs = inr d ->
  ImageDesc_ctor maxDim (format d) (width d) (height d)
    (wByteStride d) (hByteStride d) = inr d.
Proof.
  intros Hd.
  destruct (ImageDesc_ctor_bounds maxDim f w h ps rs d Hd)
    as (Hw & Hh & Hf & H1 & H2 & H3 & Hpix & Hrow).
  destruct d as [w' h' f' wbs hbs]. cbn in *. subst w' h' f'.
  pose proof (getFormatSize_nonneg f) as Hfs.
  pose proof (size_wrap_nonneg (w * wbs)) as Hmul. fold (size_mul w wbs) in Hmul.
  unfold ImageDesc_ctor.
  rewrite (proj2 (Z.ltb_ge _ _) H1), (proj2 (Z.ltb_ge _ _) H2),
    (proj2 (Z.ltb_ge _ _) H3). cbn [orb].
  destruct (Z.eqb_spec wbs 0) as [Ew | Ew]; cbn [negb].
  - assert (Efs : getFormatSize f = 0) by lia. rewrite Efs. subst wbs.
    destruct (Z.eqb_spec hbs 0) as [Eh | Eh]; cbn [negb].
    + subst hbs. f_equal. f_equal. lia.
    + rewrite (proj2 (Z.ltb_ge _ _) Hrow). reflexivity.
  - rewrite (proj2 (Z.ltb_ge _ _) Hpix).
    destruct (Z.eqb_spec hbs 0) as [Eh | Eh]; cbn [negb].
    + subst hbs. f_equal. f_equal. lia.
    + rewrite (proj2 (Z.ltb_ge _ _) Hrow). reflexivity.
Qed.

Lemma ImageDesc_ctor_round_trip_witness :
  ImageDesc_ctor sample_maxDim Format.Half4 640 480 16 10240
  = inr (mkImageDesc 640 480 Format.Half4 16 10240).
Proof.
  assert (H : ImageDesc_ctor sample_maxDim Format.Half4 640 480 16 0
              = inr (mkImageDesc 640 480 Format.Half4 16 10240))
    by reflexivity.
  exact (ImageDesc_ctor_round_trip sample_maxDim Format.Half4 640 480 16 0
           _ H).
Defined.

(** The size test in exact arithmetic, for a descriptor that was built. *)
Lemma ImageDesc_ctor_size_limit_aux (maxDim : Z) (f : Format.t)
    (w h ps rs : Z) (d : ImageDesc) :
  0 <= maxDim <= INT_MAX -> is_size_t w -> is_size_t h ->
  ImageDesc_ctor maxDim f w h ps rs = inr d ->
  w <= maxDim /\ h <= maxDim /\ w * h * getC f <= INT_MAX.
Proof.
  intros Hm Hw Hh Hd.
  destruct (ImageDesc_ctor_bounds maxDim f w h ps rs d Hd)
    as (_ & _ & _ & H1 & H2 & H3 & _).
  rewrite (pixel_count_exact maxDim Hm) in H3 by (destruct Hw, Hh; lia).
  auto.
Qed.

(** Default strides are the most permissive choice: a size that is accepted
    with some strides is accepted with default strides, and with default
    strides a size that passes the size test is always accepted, with the
    tightly packed strides [getFormatSize(format)] and
    [width * getFormatSize(format)], which do not wrap. *)
Theorem default_strides_accepted (maxDim : Z) (f : Format.t) (w h : Z) :
  0 <= maxDim <= INT_MAX -> is_size_t w -> is_size_t h ->
  (forall ps rs d,
      ImageDesc_ctor maxDim f w h ps rs = inr d ->
      ImageDesc_ctor maxDim f w h 0 0
      = inr (mkImageDesc w h f (getFormatSize f) (w * getFormatSize f))
      /\ getFormatSize f <= wByteStride d)
  /\ (w <= maxDim -> h <= maxDim -> w * h * getC f <= INT_MAX ->
      ImageDesc_ctor maxDim f w h 0 0
      = inr (mkImageDesc w h f (getFormatSize f) (w * getFormatSize f))).
Proof.
  intros Hm Hw Hh.
  assert (Hdef : w <= maxDim -> h <= maxDim -> w * h * getC f <= INT_MAX ->
                 ImageDesc_ctor maxDim f w h 0 0
                 = inr (mkImageDesc w h f (getFormatSize f)
                          (w * getFormatSize f))).
  { intros H1 H2 H3.
    rewrite (ImageDesc_ctor_sized maxDim Hm f w h 0 0 Hw Hh H1 H2 H3).
    cbn. rewrite size_mul_exact; [reflexivity |].
    pose proof (getFormatSize_range f) as Hfs.
    assert (Hmod : SIZE_MOD = 18446744073709551616) by reflexivity.
    unfold INT_MAX in Hm. destruct Hw as [Hw0 _]. nia. }
  split; [| exact Hdef].
  intros ps rs d Hd.
  destruct (ImageDesc_ctor_size_limit_aux maxDim f w h ps rs d Hm Hw Hh Hd)
    as (H1 & H2 & H3).
  split; [apply Hdef; assumption |].
  apply (ImageDesc_ctor_bounds maxDim f w h ps rs d Hd).
Qed.

Lemma default_strides_accepted_witness :
  ImageDesc_ctor sample_maxDim Format.Half4 640 480 0 0
  = inr (mkImageDesc 640 480 Format.Half4 (getFormatSize Format.Half4)
           (640 * getFormatSize Format.Half4)).
Proof.
  assert (Hm : 0 <= sample_maxDim <= INT_MAX) by by_compute.
  assert (Hw : is_size_t 640) by by_compute.
  assert (Hh : is_size_t 480) by by_compute.
  assert (H : ImageDesc_ctor sample_maxDim Format.Half4 640 480 16 0
              = inr (mkImageDesc 640 480 Format.Half4 16 10240))
    by reflexivity.
  exact (proj1 (proj1 (default_strides_accepted sample_maxDim Format.Half4
                         640 480 Hm Hw Hh) 16 0 _ H)).
Defined.

(** [Image()] can be built whenever [maxDim] is not negative; the image it
    builds has a null pointer, no buffer and an empty descriptor, and it
    overlaps no image, on either side. *)
Theorem default_image_overlaps_nothing (maxDim : Z) :
  0 <= maxDim ->
  Image_ctor_default maxDim
  = inr (mkImage (mkImageDesc 0 0 Format.Undefined 0 0) nullptr None)
  /\ forall i j, Image_ctor_default maxDim = inr i ->
                 overlaps i j = false /\ overlaps j i = false.
Proof.
  intros Hm.
  assert (Hdef : Image_ctor_default maxDim
                 = inr (mkImage (mkImageDesc 0 0 Format.Undefined 0 0)
                          nullptr None)).
  { unfold Image_ctor_default, ImageDesc_ctor.
    rewrite (proj2 (Z.ltb_ge maxDim 0) Hm). reflexivity. }
  split; [exact Hdef |].
  intros i j Hi. rewrite Hdef in Hi. injection Hi as <-.
  split; apply overlaps_null; [left | right]; reflexivity.
Qed.

Lemma default_image_overlaps_nothing_witness :
  overlaps (mkImage (mkImageDesc 0 0 Format.Undefined 0 0) nullptr None)
    raw_image_1 = false.
Proof.
  assert (Hm : 0 <= sample_maxDim) by by_compute.
  destruct (default_image_overlaps_nothing sample_maxDim Hm) as [Hdef Hno].
  exact (proj1 (Hno _ raw_image_1 Hdef)).
Defined.

(** ** Images over buffers *)

Section BufferImages.

Variable maxDim : Z.
Variables (hBuffer bufByteSize bufData : Z).

(** The buffer's memory lies in the address space. *)
Hypothesis data_range : 0 <= bufData.
Hypothesis buffer_range : bufData + bufByteSize < SIZE_MOD.

Lemma Image_ctor_buffer_inv f w h off ps rs i :
  Image_ctor_buffer maxDim hBuffer bufByteSize bufData f w h off ps rs = inr i ->
  ImageDesc_ctor maxDim f w h ps rs = inr (desc i)
  /\ size_add off (getByteSize (desc i)) <= bufByteSize
  /\ ptr i = ptr_add bufData off
  /\ buffer i = Some hBuffer.
Proof.
  unfold Image_ctor_buffer.
  destruct (ImageDesc_ctor maxDim f w h ps rs) as [e | d]; [discriminate |].
  destruct (Z.ltb_spec bufByteSize (size_add off (getByteSize d)));
    [discriminate |].
  intros [= <-]. cbn. auto.
Qed.

Lemma getByteSize_range d : is_size_t (getByteSize d).
Proof. unfold getByteSize, size_mul. apply size_wrap_range. Qed.

(** Where the image lies, when the sum of offset and byte size does not
    wrap. *)
Lemma Image_ctor_buffer_interval f w h off ps rs i :
  Image_ctor_buffer maxDim hBuffer bufByteSize bufData f w h off ps rs = inr i ->
  0 <= off -> off + getByteSize (desc i) < SIZE_MOD ->
  Image_begin i = bufData + off
  /\ Image_end i = bufData + off + getByteSize (desc i)
  /\ off + getByteSize (desc i) <= bufByteSize.
Proof using data_range buffer_range.
  intros Hi Hoff Hfit.
  destruct (Image_ctor_buffer_inv f w h off ps rs i Hi)
    as (_ & Hle & Hptr & _).
  pose proof (getByteSize_range (desc i)) as [Hbs _].
  rewrite size_add_exact in Hle by lia.
  unfold Image_begin, Image_end. rewrite Hptr. unfold ptr_add.
  rewrite (size_wrap_small (bufData + off)) by (unfold is_size_t; lia).
  rewrite size_wrap_small by (unfold is_size_t; lia).
  auto.
Qed.

End BufferImages.

(** An image built over a buffer, with an offset and byte size whose sum does
    not wrap, lies inside the memory of the buffer: it starts [byteOffset]
    bytes into it and ends no later than the buffer does.  Built again from its
    own descriptor with the other constructor, it is the same image. *)
Theorem buffer_image_inside_buffer (maxDim hBuffer bufByteSize bufData : Z)
    (f : Format.t) (w h off ps rs : Z) (i : Image) :
  0 <= bufData -> bufData + bufByteSize < SIZE_MOD ->
  Image_ctor_buffer maxDim hBuffer bufByteSize bufData f w h off ps rs = inr i ->
  0 <= off -> off + getByteSize (desc i) < SIZE_MOD ->
  buffer i = Some hBuffer
  /\ Image_begin i = bufData + off
  /\ bufData <= Image_begin i
  /\ Image_end i = Image_begin i + getByteSize (desc i)
  /\ Image_end i <= bufData + bufByteSize
  /\ Image_ctor_buffer_desc hBuffer bufByteSize bufData (desc i) off = inr i.
Proof.
  intros Hdata Hbuf Hi Hoff Hfit.
  destruct (Image_ctor_buffer_interval maxDim hBuffer bufByteSize bufData
              Hdata Hbuf f w h off ps rs i Hi Hoff Hfit) as (Hb & He & Hle).
  destruct (Image_ctor_buffer_inv maxDim hBuffer bufByteSize bufData
              f w h off ps rs i Hi) as (_ & Hle' & Hptr & Hbuffer).
  repeat split; try lia; try assumption.
  unfold Image_ctor_buffer_desc.
  rewrite (proj2 (Z.ltb_ge _ _) Hle'), <- Hptr, <- Hbuffer.
  destruct i; reflexivity.
Qed.

Lemma buffer_image_inside_buffer_witness :
  exists i,
    Image_ctor_buffer sample_maxDim hBufferA 4096 65536 Format.Float3
      16 16 256 0 0 = inr i
    /\ Image_begin i = 65536 + 256
    /\ Image_end i <= 65536 + 4096.
Proof.
  assert (H1 : 0 <= 65536) by by_compute.
  assert (H2 : 65536 + 4096 < SIZE_MOD) by by_compute.
  assert (H3 : 0 <= 256) by by_compute.
  eexists. split; [reflexivity |].
  assert (H4 : 256 + getByteSize (mkImageDesc 16 16 Format.Float3 12 192)
               < SIZE_MOD) by by_compute.
  destruct (buffer_image_inside_buffer sample_maxDim hBufferA 4096 65536
              Format.Float3 16 16 256 0 0 _ H1 H2 eq_refl H3 H4)
    as (_ & Hb & _ & _ & He & _).
  exact (conj Hb He).
Defined.

(** Two images built over one buffer overlap exactly when their byte ranges
    inside the buffer do: [off1 < off2 + size2] and [off2 < off1 + size1].
    Two images built over different buffers never overlap, even when the two
    buffers have the same memory. *)
Theorem buffer_images_overlap (maxDim : Z)
    (f1 f2 : Format.t) (w1 h1 off1 ps1 rs1 w2 h2 off2 ps2 rs2 : Z)
    (hBuffer bufByteSize bufData : Z) (i1 i2 : Image) :
  Image_ctor_buffer maxDim hBuffer bufByteSize bufData f1 w1 h1 off1 ps1 rs1
  = inr i1 ->
  (forall hOther sizeOther dataOther,
      hOther <> hBuffer ->
      Image_ctor_buffer maxDim hOther sizeOther dataOther f2 w2 h2 off2 ps2 rs2
      = inr i2 ->
      overlaps i1 i2 = false)
  /\ (Image_ctor_buffer maxDim hBuffer bufByteSize bufData f2 w2 h2 off2 ps2 rs2
      = inr i2 ->
      0 < bufData -> bufData + bufByteSize < SIZE_MOD ->
      0 <= off1 -> off1 + getByteSize (desc i1) < SIZE_MOD ->
      0 <= off2 -> off2 + getByteSize (desc i2) < SIZE_MOD ->
      overlaps i1 i2 = true
      <-> off1 < off2 + getByteSize (desc i2)
          /\ off2 < off1 + getByteSize (desc i1)).
Proof.
  intros Hi1.
  destruct (Image_ctor_buffer_inv maxDim hBuffer bufByteSize bufData
              f1 w1 h1 off1 ps1 rs1 i1 Hi1) as (_ & _ & Hp1 & Hb1).
  split.
  - intros hOther sizeOther dataOther Hne Hi2.
    destruct (Image_ctor_buffer_inv maxDim hOther sizeOther dataOther
                f2 w2 h2 off2 ps2 rs2 i2 Hi2) as (_ & _ & _ & Hb2).
    apply overlaps_different_buffers. congruence.
  - intros Hi2 Hdata Hbuf Hoff1 Hfit1 Hoff2 Hfit2.
    destruct (Image_ctor_buffer_inv maxDim hBuffer bufByteSize bufData
                f2 w2 h2 off2 ps2 rs2 i2 Hi2) as (_ & _ & Hp2 & Hb2).
    assert (Hdata' : 0 <= bufData) by lia.
    destruct (Image_ctor_buffer_interval maxDim hBuffer bufByteSize bufData
                Hdata' Hbuf f1 w1 h1 off1 ps1 rs1 i1 Hi1 Hoff1 Hfit1)
      as (Hbeg1 & Hend1 & _).
    destruct (Image_ctor_buffer_interval maxDim hBuffer bufByteSize bufData
                Hdata' Hbuf f2 w2 h2 off2 ps2 rs2 i2 Hi2 Hoff2 Hfit2)
      as (Hbeg2 & Hend2 & _).
    rewrite overlaps_same_buffer.
    + rewrite Hbeg1, Hbeg2, Hend1, Hend2. lia.
    + unfold Image_begin in Hbeg1. unfold nullptr. lia.
    + unfold Image_begin in Hbeg2. unfold nullptr. lia.
    + congruence.
Qed.

Lemma buffer_images_overlap_witness :
  (* two 16 x 16 Float3 images, 3072 bytes each, at offsets 0 and 1024 of a
     buffer of 4096 bytes *)
  exists i1 i2,
    Image_ctor_buffer sample_maxDim hBufferA 4096 65536 Format.Float3
      16 16 0 0 0 = inr i1
    /\ Image_ctor_buffer sample_maxDim hBufferA 4096 65536 Format.Float3
         16 16 1024 0 0 = inr i2
    /\ overlaps i1 i2 = true.
Proof.
  eexists. eexists. split; [reflexivity |]. split; [reflexivity |].
  assert (H1 : 0 < 65536) by by_compute.
  assert (H2 : 65536 + 4096 < SIZE_MOD) by by_compute.
  assert (H3 : 0 <= 0) by by_compute.
  assert (H4 : 0 <= 1024) by by_compute.
  assert (H5 : 0 + getByteSize (mkImageDesc 16 16 Format.Float3 12 192)
               < SIZE_MOD) by by_compute.
  assert (H6 : 1024 + getByteSize (mkImageDesc 16 16 Format.Float3 12 192)
               < SIZE_MOD) by by_compute.
  apply (proj2 (buffer_images_overlap sample_maxDim Format.Float3
                  Format.Float3 16 16 0 0 0 16 16 1024 0 0 hBufferA 4096
                  65536 _ _ eq_refl) eq_refl H1 H2 H3 H5 H4 H6).
  by_compute.
Defined.

(** ** Refreshing the pointer of an image *)

Lemma Image_updatePtr_buffer i off w hB b :
  buffer i = Some hB -> heap w !! hB = Some (OBuffer b) ->
  Image_updatePtr i off w
  = if buf_byteSize b <? size_add off (getByteSize (desc i))
    then (w, Throw (std_exception "buffer region out of range"))
    else (w, Return (mkImage (desc i) (ptr_add (buf_data b) off) (Some hB))).
Proof.
  intros Hb Hlive. unfold Image_updatePtr. rewrite Hb.
  unfold bind, derefBuffer. rewrite Hlive.
  destruct (buf_byteSize b <? size_add off (getByteSize (desc i)));
    reflexivity.
Qed.

(** [updatePtr] never changes the store and leaves an image without a buffer
    alone.  For an image over a buffer it reads the buffer as it is now: when
    the region still fits, the image keeps its descriptor and buffer and its
    pointer becomes [getData() + byteOffset]; when it does not, the call
    throws.  Right after the image was built over the buffer, [updatePtr]
    gives back the same image. *)
Theorem updatePtr_refreshes (i : Image) (off : Z) (w : World) :
  (Image_updatePtr i off w).1 = w
  /\ (buffer i = None -> Image_updatePtr i off w = (w, Return i))
  /\ (forall hB b,
        buffer i = Some hB -> heap w !! hB = Some (OBuffer b) ->
        (size_add off (getByteSize (desc i)) <= buf_byteSize b ->
         Image_updatePtr i off w
         = (w, Return (mkImage (desc i) (ptr_add (buf_data b) off) (Some hB))))
        /\ (buf_byteSize b < size_add off (getByteSize (desc i)) ->
            Image_updatePtr i off w
            = (w, Throw (std_exception "buffer region out of range"))))
  /\ (forall maxDim hB b f wd ht ps rs,
        heap w !! hB = Some (OBuffer b) ->
        Image_ctor_buffer maxDim hB (buf_byteSize b) (buf_data b) f wd ht off
          ps rs = inr i ->
        Image_updatePtr i off w = (w, Return i)).
Proof.
  split; [| split; [| split]].
  - unfold Image_updatePtr. destruct (buffer i) as [hB |]; [| reflexivity].
    unfold bind, derefBuffer.
    destruct (heap w !! hB) as [[d | b | f] |]; try reflexivity.
    destruct (buf_byteSize b <? size_add off (getByteSize (desc i)));
      reflexivity.
  - intros Hb. unfold Image_updatePtr. rewrite Hb. reflexivity.
  - intros hB b Hb Hlive.
    rewrite (Image_updatePtr_buffer i off w hB b Hb Hlive). split.
    + intros Hle. rewrite (proj2 (Z.ltb_ge _ _) Hle). reflexivity.
    + intros Hlt. rewrite (proj2 (Z.ltb_lt _ _) Hlt). reflexivity.
  - intros maxDim hB b f wd ht ps rs Hlive Hi.
    destruct (Image_ctor_buffer_inv maxDim hB (buf_byteSize b) (buf_data b)
                f wd ht off ps rs i Hi) as (_ & Hle & Hptr & Hbuf).
    rewrite (Image_updatePtr_buffer i off w hB b Hbuf Hlive).
    rewrite (proj2 (Z.ltb_ge _ _) Hle), <- Hptr, <- Hbuf.
    destruct i; reflexivity.
Qed.

Lemma updatePtr_refreshes_witness :
  Image_updatePtr
    (mkImage (mkImageDesc 16 16 Format.Float3 12 192) 65792 (Some hBufferA))
    256 sample_world
  = (sample_world,
     Return (mkImage (mkImageDesc 16 16 Format.Float3 12 192) 65792
               (Some hBufferA))).
Proof.
  assert (H : heap sample_world !! hBufferA = Some (OBuffer bufferA))
    by reflexivity.
  exact (proj2 (proj2 (proj2 (updatePtr_refreshes _ 256 sample_world)))
           sample_maxDim hBufferA bufferA Format.Float3 16 16 0 0 H eq_refl).
Defined.

(** A region that does not fit its buffer is an [InvalidArgument] when the
    image is built, and an [Unknown] error when [updatePtr] finds it: the
    constructor throws an [Exception], [updatePtr] a [std::range_error], and
    the handlers of the API tell them apart. *)
Theorem out_of_range_error_kinds (OIDN_DNNL : bool) (maxDim : Z)
    (hB : Z) (b : BufferObj) (f : Format.t) (wd ht off ps rs : Z)
    (d : ImageDesc) (p : Z) (w : World) :
  heap w !! hB = Some (OBuffer b) ->
  ImageDesc_ctor maxDim f wd ht ps rs = inr d ->
  buf_byteSize b < size_add off (getByteSize d) ->
  let thrown_by_ctor :=
    Exception Error.InvalidArgument "buffer region out of range" in
  let thrown_by_updatePtr := std_exception "buffer region out of range" in
  Image_ctor_buffer maxDim hB (buf_byteSize b) (buf_data b) f wd ht off ps rs
  = inl thrown_by_ctor
  /\ Image_updatePtr (mkImage d p (Some hB)) off w
     = (w, Throw thrown_by_updatePtr)
  /\ OIDN_CATCH OIDN_DNNL thrown_by_ctor
     = (Error.InvalidArgument, "buffer region out of range")
  /\ OIDN_CATCH OIDN_DNNL thrown_by_updatePtr
     = (Error.Unknown, "buffer region out of range").
Proof.
  intros Hlive Hd Hlt. cbv zeta.
  split; [| split; [| split; reflexivity]].
  - unfold Image_ctor_buffer. rewrite Hd, (proj2 (Z.ltb_lt _ _) Hlt).
    reflexivity.
  - rewrite (Image_updatePtr_buffer (mkImage d p (Some hB)) off w hB b
               eq_refl Hlive).
    cbn [desc]. rewrite (proj2 (Z.ltb_lt _ _) Hlt). reflexivity.
Qed.

Lemma out_of_range_error_kinds_witness :
  (* a 16 x 16 Float3 image (3072 bytes) at offset 2048 of the 4096 bytes of
     buffer A *)
  Image_updatePtr
    (mkImage (mkImageDesc 16 16 Format.Float3 12 192) 67584 (Some hBufferA))
    2048 sample_world
  = (sample_world, Throw (std_exception "buffer region out of range")).
Proof.
  assert (H1 : heap sample_world !! hBufferA = Some (OBuffer bufferA))
    by reflexivity.
  assert (H2 : ImageDesc_ctor sample_maxDim Format.Float3 16 16 0 0
               = inr (mkImageDesc 16 16 Format.Float3 12 192)) by reflexivity.
  assert (H3 : buf_byteSize bufferA
               < size_add 2048
                   (getByteSize (mkImageDesc 16 16 Format.Float3 12 192)))
    by by_compute.
  exact (proj1 (proj2 (out_of_range_error_kinds true sample_maxDim hBufferA
                         bufferA Format.Float3 16 16 2048 0 0 _ 67584
                         sample_world H1 H2 H3))).
Defined.

(** ** The accessor handed to the CPU kernels *)

Lemma int_of_size_t_small x : 0 <= x <= INT_MAX -> int_of_size_t x = x.
Proof.
  unfold INT_MAX, int_of_size_t. intros Hx. cbv zeta.
  rewrite Z.mod_small by lia.
  rewrite (proj2 (Z.ltb_lt _ _)) by lia. reflexivity.
Qed.

(** For an image whose descriptor the constructor built, the conversion to
    an [ispc::ImageAccessor] does not throw, carries the pointer and the
    strides over, and its [int] fields [W] and [H] are the width and height,
    without truncation; an image of undefined format is read as
    [Float32]. *)
Theorem accessor_of_built_image (maxDim : Z) (f : Format.t) (w h ps rs : Z)
    (i : Image) :
  0 <= maxDim <= INT_MAX -> is_size_t w -> is_size_t h ->
  ImageDesc_ctor maxDim f w h ps rs = inr (desc i) ->
  exists acc,
    Image_to_ImageAccessor i = inr acc
    /\ ispc.acc_W acc = w /\ ispc.acc_H acc = h
    /\ ispc.acc_ptr acc = ptr i
    /\ ispc.acc_wByteStride acc = wByteStride (desc i)
    /\ ispc.acc_hByteStride acc = hByteStride (desc i)
    /\ (f = Format.Undefined ->
        ispc.acc_dataType acc = ispc.DataType_Float32).
Proof.
  intros Hm Hw Hh Hd.
  destruct (ImageDesc_ctor_bounds maxDim f w h ps rs (desc i) Hd)
    as (Ew & Eh & Ef & H1 & H2 & _).
  unfold Image_to_ImageAccessor. rewrite Ew, Eh, Ef.
  rewrite !int_of_size_t_small by (destruct Hw, Hh; lia).
  destruct f; cbn; eexists; (split; [reflexivity |]); cbn;
    repeat split; congruence.
Qed.

Lemma accessor_of_built_image_witness :
  exists acc,
    Image_to_ImageAccessor raw_image_1 = inr acc
    /\ ispc.acc_W acc = 4 /\ ispc.acc_H acc = 4.
Proof.
  assert (Hm : 0 <= sample_maxDim <= INT_MAX) by by_compute.
  assert (Hs : is_size_t 4) by by_compute.
  assert (Hd : ImageDesc_ctor sample_maxDim Format.Float 4 4 0 0
               = inr (desc raw_image_1)) by reflexivity.
  destruct (accessor_of_built_image sample_maxDim Format.Float 4 4 0 0
              raw_image_1 Hm Hs Hs Hd) as (acc & Hacc & HW & HH & _).
  exists acc. exact (conj Hacc (conj HW HH)).
Defined.

(** * Further properties of the API *)

(** ** Creating devices *)

(** The device class that [oidnNewDevice] picks is always compiled in and is
    never [Default].  An explicit type gets exactly that class, or an error:
    it never falls back to another backend, and it is not asked whether it is
    supported.  [Default] gets the first of CUDA, HIP and SYCL that is
    compiled in and supported, else the CPU when it is compiled in. *)
Theorem select_device_spec (b : Build) (type : DeviceType.t) :
  (forall kind, select_device b type = inr kind ->
     compiled b kind = true
     /\ kind <> DeviceType.Default
     /\ (type <> DeviceType.Default -> kind = type)
     /\ (type = DeviceType.Default -> supported b kind = true))
  /\ (type <> DeviceType.Default ->
      select_device b type
      = if compiled b type then inr type
        else inl (Exception Error.InvalidArgument "unsupported device type"))
  /\ (select_device b DeviceType.Default
      = if compiled b DeviceType.CUDA && supported b DeviceType.CUDA
        then inr DeviceType.CUDA
        else if compiled b DeviceType.HIP && supported b DeviceType.HIP
        then inr DeviceType.HIP
        else if compiled b DeviceType.SYCL && supported b DeviceType.SYCL
        then inr DeviceType.SYCL
        else if compiled b DeviceType.CPU then inr DeviceType.CPU
        else inl (Exception Error.InvalidArgument "unsupported device type")).
Proof.
  destruct b as [cpu sycl cuda hip scuda ship ssycl].
  split; [| split].
  - intros kind. unfold select_device, compiled, supported.
    cbn [OIDN_DEVICE_CPU OIDN_DEVICE_SYCL OIDN_DEVICE_CUDA OIDN_DEVICE_HIP
         CUDA_isSupported HIP_isSupported SYCL_isSupported].
    destruct type, cuda, hip, sycl, cpu, scuda, ship, ssycl; cbn;
      intros [= <-]; repeat split; congruence.
  - intros Hne. unfold select_device, compiled.
    cbn [OIDN_DEVICE_CPU OIDN_DEVICE_SYCL OIDN_DEVICE_CUDA OIDN_DEVICE_HIP
         CUDA_isSupported HIP_isSupported SYCL_isSupported].
    destruct type; [congruence | | | |];
      destruct cuda, hip, sycl, cpu; reflexivity.
  - unfold select_device, compiled, supported.
    cbn [OIDN_DEVICE_CPU OIDN_DEVICE_SYCL OIDN_DEVICE_CUDA OIDN_DEVICE_HIP
         CUDA_isSupported HIP_isSupported SYCL_isSupported].
    destruct cuda, hip, sycl, cpu, scuda, ship, ssycl; reflexivity.
Qed.

Lemma select_device_spec_witness :
  (* CUDA is compiled in but not supported: an explicit request gets a CUDA
     device, the default gets the CPU *)
  select_device sample_build DeviceType.CUDA = inr DeviceType.CUDA
  /\ select_device sample_build DeviceType.Default = inr DeviceType.CPU
  /\ select_device sample_build DeviceType.SYCL
     = inl (Exception Error.InvalidArgument "unsupported device type").
Proof.
  destruct (select_device_spec sample_build DeviceType.CUDA) as (_ & H1 & H2).
  destruct (select_device_spec sample_build DeviceType.SYCL) as (_ & H3 & _).
  split; [exact (H1 ltac:(discriminate)) |].
  split; [exact H2 | exact (H3 ltac:(discriminate))].
Defined.

Lemma device_made_fresh kind w :
  fresh_handle w <> nullptr
  /\ heap w !! fresh_handle w = None
  /\ heap (device_made kind w) !! fresh_handle w
     = Some (ODevice (mkDevice 1 false (Error.None, "") 0
                        (is_type kind DeviceType.SYCL) [] []))
  /\ (forall h o, heap w !! h = Some o ->
                  heap (device_made kind w) !! h = Some o).
Proof.
  destruct (fresh_handle_spec w) as [Hnn Hfresh].
  split; [exact Hnn |]. split; [exact Hfresh |].
  unfold device_made. world_simpl. split; [apply lookup_insert_eq |].
  intros h o Ho. rewrite lookup_insert_ne by congruence. exact Ho.
Qed.

(** The entry points that create a device either make one device, returning
    a non-null handle to a new object and leaving every other object as it
    was, or report [InvalidArgument] with no device to hold it, return the
    null handle and make nothing.  [oidnNewCUDADevice] and [oidnNewHIPDevice]
    accept zero or one stream and nothing else, negative counts included;
    [oidnNewSYCLDevice] refuses a negative number of queues and accepts
    zero. *)
Theorem device_constructors (OIDN_DNNL : bool) (b : Build) (w : World) :
  (forall type,
      oidnNewDevice OIDN_DNNL b type w
      = match select_device b type with
        | inr kind => (device_made kind w, Return (fresh_handle w))
        | inl _ =>
            (reported_nowhere Error.InvalidArgument "unsupported device type" w,
             Return nullptr)
        end)
  /\ (forall numStreams,
        oidnNewCUDADevice OIDN_DNNL numStreams w
        = if (numStreams =? 0) || (numStreams =? 1)
          then (device_made DeviceType.CUDA w, Return (fresh_handle w))
          else (reported_nowhere Error.InvalidArgument
                  "unsupported number of streams" w, Return nullptr))
  /\ (forall numStreams,
        oidnNewHIPDevice OIDN_DNNL numStreams w
        = if (numStreams =? 0) || (numStreams =? 1)
          then (device_made DeviceType.HIP w, Return (fresh_handle w))
          else (reported_nowhere Error.InvalidArgument
                  "unsupported number of streams" w, Return nullptr))
  /\ (forall numQueues,
        oidnNewSYCLDevice OIDN_DNNL numQueues w
        = if 0 <=? numQueues
          then (device_made DeviceType.SYCL w, Return (fresh_handle w))
          else (reported_nowhere Error.InvalidArgument
                  "invalid number of queues" w, Return nullptr))
  /\ (forall kind,
        fresh_handle w <> nullptr
        /\ heap w !! fresh_handle w = None
        /\ deviceError (device_made kind w) (fresh_handle w)
           = Some (Error.None, EmptyString)
        /\ (forall h o, heap w !! h = Some o ->
                        heap (device_made kind w) !! h = Some o))
  /\ (forall code message,
        heap (reported_nowhere code message w) = heap w).
Proof.
  split; [| split; [| split; [| split; [| split]]]].
  - intros type. unfold oidnNewDevice, new_device_entry, OIDN_TRY_CATCH, bind,
      lift.
    assert (Hmsg : forall e, select_device b type = inl e ->
                   e = Exception Error.InvalidArgument
                         "unsupported device type").
    { intros e He. unfold select_device in He.
      repeat match type of He with
             | (if ?c then _ else _) = _ => destruct c
             end; congruence. }
    destruct (select_device b type) as [e | kind] eqn:E; [| reflexivity].
    rewrite (Hmsg e eq_refl). reflexivity.
  - intros n. unfold oidnNewCUDADevice, new_device_entry, OIDN_TRY_CATCH.
    destruct (Z.eqb_spec n 1) as [-> | H1]; [reflexivity |].
    destruct (Z.eqb_spec n 0) as [-> | H0]; reflexivity.
  - intros n. unfold oidnNewHIPDevice, new_device_entry, OIDN_TRY_CATCH.
    destruct (Z.eqb_spec n 1) as [-> | H1]; [reflexivity |].
    destruct (Z.eqb_spec n 0) as [-> | H0]; reflexivity.
  - intros n. unfold oidnNewSYCLDevice, new_device_entry, OIDN_TRY_CATCH.
    destruct (Z.ltb_spec n 0) as [Hneg | Hpos].
    + rewrite (proj2 (Z.leb_gt _ _) Hneg). reflexivity.
    + rewrite (proj2 (Z.leb_le _ _) Hpos). reflexivity.
  - intros kind. destruct (device_made_fresh kind w) as (H1 & H2 & H3 & H4).
    split; [exact H1 |]. split; [exact H2 |]. split; [| exact H4].
    unfold deviceError. rewrite H3. reflexivity.
  - reflexivity.
Qed.

Lemma device_constructors_witness :
  oidnNewCUDADevice true (-1) sample_world
  = (reported_nowhere Error.InvalidArgument "unsupported number of streams"
       sample_world, Return nullptr)
  /\ oidnNewSYCLDevice true 0 sample_world
     = (device_made DeviceType.SYCL sample_world,
        Return (fresh_handle sample_world)).
Proof.
  destruct (device_constructors true sample_build sample_world)
    as (_ & Hcuda & _ & Hsycl & _).
  exact (conj (Hcuda (-1)) (Hsycl 0)).
Defined.

(** ** The mutex and the error report *)



(** ** The checks of the asynchronous SYCL execution *)

(** [oidnExecuteSYCLFilterAsync] checks its arguments in this order.  A
    negative [numDepEvents] is refused before the mutex is taken, whatever
    the device and the state of the filter.  A filter of a device that is not
    a SYCL device is refused under the mutex, before the dependency events
    are set: the filter and the events of the device stay as they were.  With
    a null [doneEvent] the number of completion events is not looked at:
    the call enqueues the work and reports nothing. *)
Theorem sycl_execute_checks (OIDN_DNNL : bool) (w : World) (hFilter : Z)
    (f : FilterObj) (d : DeviceObj) (depEvents : list sycl_event)
    (numDepEvents : Z) (doneEvent : bool) :
  hFilter <> nullptr -> flt_device f <> nullptr ->
  heap w !! hFilter = Some (OFilter f) ->
  heap w !! flt_device f = Some (ODevice d) ->
  let dv := flt_device f in
  let r := oidnExecuteSYCLFilterAsync OIDN_DNNL hFilter depEvents
             numDepEvents doneEvent w in
  (numDepEvents < 0 ->
   r = (reported dv d Error.InvalidArgument negative_count_message w,
        Return None)
   /\ trace r.1
      = trace w ++ [EvSetError dv Error.InvalidArgument negative_count_message])
  /\ (0 <= numDepEvents -> dev_isSYCL d = false ->
      r = (reported dv d Error.InvalidArgument not_SYCL_message (locked dv w),
           Return None)
      /\ heap r.1 !! hFilter = Some (OFilter f)
      /\ exists d', heap r.1 !! dv = Some (ODevice d')
                    /\ dev_depEvents d' = dev_depEvents d
                    /\ dev_doneEvents d' = dev_doneEvents d)
  /\ (0 <= numDepEvents -> dev_isSYCL d = true -> flt_dirty f = false ->
      doneEvent = false ->
      r = (enqueued_world w f d depEvents numDepEvents, Return None)
      /\ errors_since w r.1 = []).
Proof.
  intros Hnn Hdn Hf Hd dv r.
  assert (Hne : flt_device f <> hFilter) by congruence.
  split; [| split].
  - intros Hneg.
    assert (Hr : r = (reported dv d Error.InvalidArgument
                        negative_count_message w, Return None)).
    { unfold r, dv, oidnExecuteSYCLFilterAsync. api_unfold. api_run.
      rewrite (proj2 (Z.ltb_lt _ _) Hneg). api_run. reflexivity. }
    split; [exact Hr |]. rewrite Hr. reflexivity.
  - intros Hpos Hsycl.
    assert (Hr : r = (reported dv d Error.InvalidArgument not_SYCL_message
                        (locked dv w), Return None)).
    { unfold r, dv, oidnExecuteSYCLFilterAsync. api_unfold. api_run.
      rewrite (proj2 (Z.ltb_ge _ _) Hpos). api_run.
      rewrite Hsycl. cbn [negb]. api_run. reflexivity. }
    split; [exact Hr |]. rewrite Hr. unfold reported, locked, dv. world_simpl.
    split; [rewrite lookup_insert_ne by congruence; exact Hf |].
    eexists. rewrite lookup_insert_eq. split; [reflexivity |].
    split; reflexivity.
  - intros Hpos Hsycl Hclean ->.
    assert (Hr : r = (enqueued_world w f d depEvents numDepEvents,
                      Return None)).
    { unfold r, oidnExecuteSYCLFilterAsync, setDepEvents, Filter_execute,
        getDoneEvents.
      api_unfold. api_run.
      rewrite (proj2 (Z.ltb_ge _ _) Hpos). api_run.
      rewrite Hsycl. cbn [negb]. api_run.
      rewrite Hclean. api_run.
      unfold enqueued_world, enqueued_device.
      unfold set_heap, emit; world_simpl; rewrite ?insert_insert_eq.
      reflexivity. }
    split; [exact Hr |]. rewrite Hr. cbn [fst].
    rewrite (errors_since_app w _
               [EvLock (flt_device f); EvUnlock (flt_device f)]);
      [reflexivity |].
    unfold enqueued_world. world_simpl. rewrite <- !app_assoc. reflexivity.
Qed.

Lemma sycl_execute_checks_witness :
  (* the filter on device A, which is not a SYCL device *)
  oidnExecuteSYCLFilterAsync true hFilterA [] 0 true sample_world
  = (reported hDeviceA deviceA Error.InvalidArgument not_SYCL_message
       (locked hDeviceA sample_world),
     Return None).
Proof.
  assert (H1 : hFilterA <> nullptr) by discriminate.
  assert (H2 : flt_device filterA <> nullptr) by discriminate.
  assert (H3 : heap sample_world !! hFilterA = Some (OFilter filterA))
    by reflexivity.
  assert (H4 : heap sample_world !! flt_device filterA
               = Some (ODevice deviceA)) by reflexivity.
  assert (H5 : 0 <= 0) by discriminate.
  exact (proj1 (proj1 (proj2 (sycl_execute_checks true sample_world hFilterA
                                filterA deviceA [] 0 true H1 H2 H3 H4))
                  H5 eq_refl)).
Defined.

(** ** The width and the height as [int] *)

Lemma int_arg_periodic x k : int_arg (x + k * 2 ^ 32) = int_arg x.
Proof.
  unfold int_arg, int_of_size_t. rewrite Z_mod_plus_full. reflexivity.
Qed.

Lemma int_arg_low x : x mod 2 ^ 32 < 2 ^ 31 -> int_arg x = x mod 2 ^ 32.
Proof.
  intros H. unfold int_arg, int_of_size_t, size_t_of_int. cbv zeta.
  rewrite (proj2 (Z.ltb_lt _ _) H).
  assert (H32 : 0 <= x mod 2 ^ 32 < 2 ^ 32)
    by (apply Z.mod_pos_bound; reflexivity).
  apply size_wrap_small. unfold is_size_t.
  assert (Hmod : SIZE_MOD = 18446744073709551616) by reflexivity.
  rewrite Hmod. lia.
Qed.

Lemma int_arg_high x :
  2 ^ 31 <= x mod 2 ^ 32 -> SIZE_MOD - 2 ^ 31 <= int_arg x.
Proof.
  intros H. unfold int_arg, int_of_size_t, size_t_of_int. cbv zeta.
  rewrite (proj2 (Z.ltb_ge _ _) H).
  assert (H32 : 0 <= x mod 2 ^ 32 < 2 ^ 32)
    by (apply Z.mod_pos_bound; reflexivity).
  assert (Hmod : SIZE_MOD = 18446744073709551616) by reflexivity.
  unfold size_wrap.
  replace (x mod 2 ^ 32 - 2 ^ 32)
    with ((x mod 2 ^ 32 - 2 ^ 32 + SIZE_MOD) + (-1) * SIZE_MOD) by ring.
  rewrite Z_mod_plus_full. rewrite Z.mod_small; rewrite Hmod; lia.
Qed.

Lemma ImageDesc_ctor_cast_rejected maxDim fmt width height ps rs :
  0 <= maxDim < SIZE_MOD - 2 ^ 31 ->
  2 ^ 31 <= width mod 2 ^ 32 \/ 2 ^ 31 <= height mod 2 ^ 32 ->
  ImageDesc_ctor maxDim fmt (int_arg width) (int_arg height) ps rs
  = inl (Exception Error.InvalidArgument too_large_message).
Proof.
  intros Hm H. unfold ImageDesc_ctor.
  assert (Hor : (maxDim <? int_arg width) || (maxDim <? int_arg height) = true).
  { apply orb_true_iff. destruct H as [H | H]; [left | right];
      apply Z.ltb_lt; apply int_arg_high in H; lia. }
  rewrite Hor. reflexivity.
Qed.

(** [oidnSetFilterImage] and [oidnSetSharedFilterImage] convert the width
    and the height to [int] before the image is built, so only their low 32
    bits count: adding a multiple of [2^32] to either changes nothing, and a
    value whose low 32 bits are below [2^31] is taken as those bits.  A value
    whose low 32 bits are [2^31] or more becomes a negative [int], which the
    image constructor receives as a size above every dimension limit: the
    call reports [InvalidArgument], "image size too large". *)
Theorem width_and_height_cast (maxDim : Z) (OIDN_DNNL : bool)
    (hFilter : Z) (name : string) (hBuffer devPtr : Z) (fmt : Format.t)
    (width height byteOffset ps rs : Z) :
  (forall k j,
     oidnSetFilterImage maxDim OIDN_DNNL hFilter name hBuffer fmt
       (width + k * 2 ^ 32) (height + j * 2 ^ 32) byteOffset ps rs
     = oidnSetFilterImage maxDim OIDN_DNNL hFilter name hBuffer fmt
         width height byteOffset ps rs)
  /\ (forall k j,
        oidnSetSharedFilterImage maxDim OIDN_DNNL hFilter name devPtr fmt
          (width + k * 2 ^ 32) (height + j * 2 ^ 32) byteOffset ps rs
        = oidnSetSharedFilterImage maxDim OIDN_DNNL hFilter name devPtr fmt
            width height byteOffset ps rs)
  /\ (width mod 2 ^ 32 < 2 ^ 31 -> int_arg width = width mod 2 ^ 32)
  /\ (0 <= maxDim < SIZE_MOD - 2 ^ 31 ->
      2 ^ 31 <= width mod 2 ^ 32 \/ 2 ^ 31 <= height mod 2 ^ 32 ->
      forall w f d,
        hFilter <> nullptr -> flt_device f <> nullptr ->
        heap w !! hFilter = Some (OFilter f) ->
        heap w !! flt_device f = Some (ODevice d) ->
        oidnSetSharedFilterImage maxDim OIDN_DNNL hFilter name devPtr fmt
          width height byteOffset ps rs w
        = (reported (flt_device f) d Error.InvalidArgument too_large_message
             (locked (flt_device f) w),
           Return tt)).
Proof.
  split; [| split; [| split]].
  - intros k j. unfold oidnSetFilterImage. rewrite !int_arg_periodic.
    reflexivity.
  - intros k j. unfold oidnSetSharedFilterImage. rewrite !int_arg_periodic.
    reflexivity.
  - apply int_arg_low.
  - intros Hm Hhigh w f d Hnn Hdn Hf Hd.
    assert (Hne : flt_device f <> hFilter) by congruence.
    unfold oidnSetSharedFilterImage, Image_ctor_ptr.
    rewrite (ImageDesc_ctor_cast_rejected maxDim fmt width height ps rs Hm
               Hhigh).
    api_unfold. api_run. unfold throw. api_run. reflexivity.
Qed.

Lemma width_and_height_cast_witness :
  (* a width of 2^32 + 16 is taken as 16; a width of 2^31 is refused *)
  oidnSetSharedFilterImage sample_maxDim true hFilterA "color" 4096
    Format.Float (16 + 1 * 2 ^ 32) (16 + 0 * 2 ^ 32) 0 0 0
  = oidnSetSharedFilterImage sample_maxDim true hFilterA "color" 4096
      Format.Float 16 16 0 0 0
  /\ oidnSetSharedFilterImage sample_maxDim true hFilterA "color" 4096
       Format.Float (2 ^ 31) 16 0 0 0 sample_world
     = (reported hDeviceA deviceA Error.InvalidArgument too_large_message
          (locked hDeviceA sample_world),
        Return tt).
Proof.
  split.
  - exact (proj1 (proj2 (width_and_height_cast sample_maxDim true hFilterA
                           "color" nullptr 4096 Format.Float 16 16 0 0 0))
             1 0).
  - assert (Hm : 0 <= sample_maxDim < SIZE_MOD - 2 ^ 31)
      by (split; [discriminate | reflexivity]).
    assert (Hh : 2 ^ 31 <= 2 ^ 31 mod 2 ^ 32 \/ 2 ^ 31 <= 16 mod 2 ^ 32)
      by (left; discriminate).
    assert (H1 : hFilterA <> nullptr) by discriminate.
    assert (H2 : flt_device filterA <> nullptr) by discriminate.
    assert (H3 : heap sample_world !! hFilterA = Some (OFilter filterA))
      by reflexivity.
    assert (H4 : heap sample_world !! flt_device filterA
                 = Some (ODevice deviceA)) by reflexivity.
    exact (proj2 (proj2 (proj2 (width_and_height_cast sample_maxDim true
                                  hFilterA "color" nullptr 4096 Format.Float
                                  (2 ^ 31) 16 0 0 0)))
             Hm Hh sample_world filterA deviceA H1 H2 H3 H4).
Defined.

(** ** What setting an image does to the filter *)

Section SetImage.

Variables (maxDim : Z) (OIDN_DNNL : bool).
Variables (w : World) (hFilter : Z) (f : FilterObj) (d : DeviceObj).
Hypothesis hFilter_nonnull : hFilter <> nullptr.
Hypothesis device_nonnull : flt_device f <> nullptr.
Hypothesis hFilter_live : heap w !! hFilter = Some (OFilter f).
Hypothesis device_live : heap w !! flt_device f = Some (ODevice d).

Lemma oidnSetFilterImage_null_buffer name fmt width height byteOffset ps rs :
  oidnSetFilterImage maxDim OIDN_DNNL hFilter name nullptr fmt width height
    byteOffset ps rs w
  = (reported (flt_device f) d Error.InvalidArgument "invalid handle" w,
     Return tt).
Proof using hFilter_nonnull device_nonnull hFilter_live device_live.
  assert (Hne : flt_device f <> hFilter) by congruence.
  unfold oidnSetFilterImage. api_unfold. api_run.
  unfold checkHandle. cbn [is_null nullptr Z.eqb]. unfold throw. api_run.
  reflexivity.
Qed.

Lemma oidnSetFilterImage_ctor_fails hBuffer b name fmt width height
    byteOffset ps rs e :
  hBuffer <> nullptr -> heap w !! hBuffer = Some (OBuffer b) ->
  buf_device b = flt_device f ->
  Image_ctor_buffer maxDim hBuffer (buf_byteSize b) (buf_data b) fmt
    (int_arg width) (int_arg height) byteOffset ps rs = inl e ->
  oidnSetFilterImage maxDim OIDN_DNNL hFilter name hBuffer fmt width height
    byteOffset ps rs w
  = (reported (flt_device f) d (OIDN_CATCH OIDN_DNNL e).1
       (OIDN_CATCH OIDN_DNNL e).2 (locked (flt_device f) w),
     Return tt).
Proof using hFilter_nonnull device_nonnull hFilter_live device_live.
  intros Hb Hbl Heq Himg.
  assert (Hne : flt_device f <> hFilter) by congruence.
  unfold oidnSetFilterImage. api_unfold. api_run.
  rewrite Heq, Z.eqb_refl. cbn [negb]. rewrite Himg. unfold throw. api_run.
  reflexivity.
Qed.

Lemma oidnSetSharedFilterImage_run devPtr name fmt width height byteOffset
    ps rs :
  oidnSetSharedFilterImage maxDim OIDN_DNNL hFilter name devPtr fmt width
    height byteOffset ps rs w
  = match Image_ctor_ptr maxDim devPtr fmt (int_arg width) (int_arg height)
            byteOffset ps rs with
    | inl e => (reported (flt_device f) d (OIDN_CATCH OIDN_DNNL e).1
                  (OIDN_CATCH OIDN_DNNL e).2 (locked (flt_device f) w),
                Return tt)
    | inr image =>
        (replaced_released f name
           (slot_set hFilter f name image (emit (EvLock (flt_device f)) w)),
         Return tt)
    end.
Proof using hFilter_nonnull device_nonnull hFilter_live device_live.
  assert (Hne : flt_device f <> hFilter) by congruence.
  unfold oidnSetSharedFilterImage.
  destruct (Image_ctor_ptr _ _ _ _ _ _ _ _) as [e | image].
  - api_unfold. api_run. unfold throw. api_run. reflexivity.
  - pose proof (Filter_setImage_run hFilter f name image w hFilter_live)
      as Hset.
    unfold lock_guard in Hset.
    unfold OIDN_TRY_CATCH, OIDN_LOCK, bind at 1 2.
    rewrite checkHandle_ok by assumption.
    unfold getDevice. rewrite hFilter_live. unfold lock_guard, lift, bind, ret.
    destruct (Filter_setImage hFilter name image _) as [w1 [[] | e |]];
      try discriminate Hset.
    exact Hset.
Qed.

(** A failed call: one error on the filter's device, and nothing else. *)
Lemma set_image_failure code message w0 :
  heap w0 = heap w ->
  trace w0 = trace w \/ trace w0 = trace (locked (flt_device f) w) ->
  let w' := reported (flt_device f) d code message w0 in
  errors_since w w' = [EvSetError (flt_device f) code message]
  /\ deviceError w' (flt_device f) = Some (code, message)
  /\ heap w' !! hFilter = Some (OFilter f)
  /\ forall h, h <> flt_device f -> heap w' !! h = heap w !! h.
Proof using hFilter_nonnull device_nonnull hFilter_live device_live.
  assert (Hne : flt_device f <> hFilter) by congruence.
  intros Hheap Htrace w'. unfold w', reported. world_simpl. rewrite Hheap.
  split; [| split; [| split]].
  - destruct Htrace as [Ht | Ht].
    + rewrite (errors_since_app w _
                 [EvSetError (flt_device f) code message]); [reflexivity |].
      world_simpl. rewrite Ht. reflexivity.
    + rewrite (errors_since_app w _
                 [EvLock (flt_device f); EvUnlock (flt_device f);
                  EvSetError (flt_device f) code message]); [reflexivity |].
      world_simpl. rewrite Ht. unfold locked. world_simpl.
      rewrite <- !app_assoc. reflexivity.
  - unfold deviceError. world_simpl. rewrite lookup_insert_eq. reflexivity.
  - rewrite lookup_insert_ne by congruence. exact hFilter_live.
  - intros h Hh. rewrite lookup_insert_ne by congruence. reflexivity.
Qed.

(** A call that bound its image, from the store [w0] in which the image
    holds its reference. *)
Lemma set_image_success name image w0 :
  heap w0 !! hFilter = Some (OFilter f) ->
  trace w0 = trace w ->
  let w' := replaced_released f name
              (slot_set hFilter f name image
                 (emit (EvLock (flt_device f)) w0)) in
  errors_since w w' = []
  /\ heap w' !! hFilter = Some (OFilter (with_image f name image))
  /\ ((forall replaced, flt_images f !! name = Some replaced ->
                        buffer replaced = None) ->
      heap w' = <[hFilter := OFilter (with_image f name image)]> (heap w0)).
Proof.
  intros Hf0 Htrace0 w'.
  destruct (replaced_released_gives_back f name
              (slot_set hFilter f name image
                 (emit (EvLock (flt_device f)) w0)))
    as (w1 & Hw1 & (rest & Htrace & Hrest) & _ & Hfilters & _).
  fold w' in Hw1. split; [| split].
  - rewrite Hw1.
    rewrite (errors_since_app w _
               ([EvLock (flt_device f)] ++ rest ++ [EvUnlock (flt_device f)])).
    + rewrite !List.filter_app, (teardown_reports_nothing rest Hrest).
      reflexivity.
    + world_simpl. rewrite Htrace. unfold slot_set. world_simpl.
      rewrite Htrace0, <- !app_assoc. reflexivity.
  - rewrite Hw1. world_simpl. apply Hfilters. unfold slot_set. world_simpl.
    apply lookup_insert_eq.
  - intros Hfree. unfold w', replaced_released.
    destruct (flt_images f !! name) as [replaced |] eqn:Hslot;
      [| reflexivity].
    unfold Image_release. rewrite (Hfree replaced eq_refl). reflexivity.
Qed.

End SetImage.

(** [oidnSetFilterImage] and [oidnSetSharedFilterImage] on a live filter
    return normally and either fail or bind, nothing in between.  A failed
    call reports exactly one error, on the filter's device, and leaves the
    filter and every object other than the device as they were, reference
    counts included.  A call that reports nothing puts the image the
    constructor built into the named slot and marks the filter dirty; for
    [oidnSetFilterImage] the buffer handle was then non-null and the buffer
    on the filter's device.  When the slot held no image over a buffer, the
    only other change is the reference the new image holds: the count of
    its buffer is one higher. *)
Theorem set_image_all_or_nothing (maxDim : Z) (OIDN_DNNL : bool) (w : World)
    (hFilter : Z) (f : FilterObj) (d : DeviceObj) (hBuffer : Z)
    (b : BufferObj) (devPtr : Z) (name : string) (fmt : Format.t)
    (width height byteOffset ps rs : Z) :
  hFilter <> nullptr -> flt_device f <> nullptr ->
  heap w !! hFilter = Some (OFilter f) ->
  heap w !! flt_device f = Some (ODevice d) ->
  hBuffer = nullptr \/ heap w !! hBuffer = Some (OBuffer b) ->
  let dv := flt_device f in
  let failed (r : World * Outcome unit) :=
    exists code message,
      errors_since w r.1 = [EvSetError dv code message]
      /\ deviceError r.1 dv = Some (code, message)
      /\ heap r.1 !! hFilter = Some (OFilter f)
      /\ forall h, h <> dv -> heap r.1 !! h = heap w !! h in
  let bound (r : World * Outcome unit) (image : Image) :=
    errors_since w r.1 = []
    /\ heap r.1 !! hFilter = Some (OFilter (with_image f name image)) in
  let slot_free :=
    forall replaced, flt_images f !! name = Some replaced ->
                     buffer replaced = None in
  let r1 := oidnSetFilterImage maxDim OIDN_DNNL hFilter name hBuffer fmt
              width height byteOffset ps rs w in
  let r2 := oidnSetSharedFilterImage maxDim OIDN_DNNL hFilter name devPtr fmt
              width height byteOffset ps rs w in
  (r1.2 = Return tt
   /\ (failed r1
       \/ exists image,
            bound r1 image
            /\ hBuffer <> nullptr /\ buf_device b = dv
            /\ Image_ctor_buffer maxDim hBuffer (buf_byteSize b) (buf_data b)
                 fmt (int_arg width) (int_arg height) byteOffset ps rs
               = inr image
            /\ (slot_free ->
                heap r1.1
                = <[hFilter := OFilter (with_image f name image)]>
                    (<[hBuffer := buffer_referenced b]> (heap w)))))
  /\ (r2.2 = Return tt
      /\ (failed r2
          \/ exists image,
               bound r2 image
               /\ Image_ctor_ptr maxDim devPtr fmt (int_arg width)
                    (int_arg height) byteOffset ps rs = inr image
               /\ (slot_free ->
                   heap r2.1
                   = <[hFilter := OFilter (with_image f name image)]>
                       (heap w)))).
Proof.
  intros Hnn Hdn Hf Hd Hb dv failed bound slot_free r1 r2.
  assert (Hfail : forall code message w0,
            heap w0 = heap w ->
            trace w0 = trace w \/ trace w0 = trace (locked dv w) ->
            failed (reported dv d code message w0, Return tt)).
  { intros code message w0 Hheap Htrace. exists code, message.
    apply (set_image_failure w hFilter f d Hnn Hdn Hf Hd code message w0
             Hheap Htrace). }
  split.
  - unfold r1. destruct (Z.eq_dec hBuffer nullptr) as [-> | Hbn].
    { rewrite (oidnSetFilterImage_null_buffer maxDim OIDN_DNNL w hFilter f d
                 Hnn Hdn Hf Hd).
      split; [reflexivity |]. left. apply Hfail; [reflexivity |].
      left. reflexivity. }
    destruct Hb as [Hb | Hbl]; [contradiction |].
    destruct (Z.eq_dec (buf_device b) (flt_device f)) as [Heq | Hneq].
    + destruct (Image_ctor_buffer maxDim hBuffer (buf_byteSize b)
                  (buf_data b) fmt (int_arg width) (int_arg height)
                  byteOffset ps rs) as [e | image] eqn:Himg.
      * rewrite (oidnSetFilterImage_ctor_fails maxDim OIDN_DNNL w hFilter f d
                   Hnn Hdn Hf Hd hBuffer b name fmt width height byteOffset
                   ps rs e Hbn Hbl Heq Himg).
        split; [reflexivity |]. left. apply Hfail; [reflexivity |].
        right. reflexivity.
      * rewrite (oidnSetFilterImage_same_device maxDim OIDN_DNNL w hFilter
                   hBuffer f b Hnn Hbn Hf Hbl name fmt width height
                   byteOffset ps rs image Heq Himg).
        assert (Hne : hBuffer <> hFilter) by congruence.
        destruct (set_image_success w hFilter f name image
                    (set_heap (insert hBuffer (buffer_referenced b)) w))
          as (Herr & Hslot & Hfree).
        { world_simpl. rewrite lookup_insert_ne by exact Hne. exact Hf. }
        { reflexivity. }
        split; [reflexivity |]. right. exists image.
        split; [split; [exact Herr | exact Hslot] |].
        split; [exact Hbn |]. split; [exact Heq |]. split; [reflexivity |].
        exact Hfree.
    + rewrite (oidnSetFilterImage_different_devices maxDim OIDN_DNNL w
                 hFilter hBuffer f b d Hnn Hbn Hdn Hf Hbl Hd name fmt width
                 height byteOffset ps rs Hneq).
      split; [reflexivity |]. left. apply Hfail; [reflexivity |].
      right. reflexivity.
  - unfold r2.
    rewrite (oidnSetSharedFilterImage_run maxDim OIDN_DNNL w hFilter f d Hnn
               Hdn Hf Hd).
    destruct (Image_ctor_ptr maxDim devPtr fmt (int_arg width)
                (int_arg height) byteOffset ps rs) as [e | image].
    + split; [reflexivity |]. left. apply Hfail; [reflexivity |].
      right. reflexivity.
    + destruct (set_image_success w hFilter f name image w Hf eq_refl)
        as (Herr & Hslot & Hfree).
      split; [reflexivity |]. right. exists image.
      split; [split; [exact Herr | exact Hslot] |].
      split; [reflexivity | exact Hfree].
Qed.

Lemma set_image_all_or_nothing_witness :
  (oidnSetFilterImage sample_maxDim true hFilterA "color" hBufferA
     Format.Float 16 16 0 0 0 sample_world).2 = Return tt
  /\ (oidnSetSharedFilterImage sample_maxDim true hFilterA "color" 4096
        Format.Float 16 16 0 0 0 sample_world).2 = Return tt.
Proof.
  assert (H1 : hFilterA <> nullptr) by discriminate.
  assert (H2 : flt_device filterA <> nullptr) by discriminate.
  assert (H3 : heap sample_world !! hFilterA = Some (OFilter filterA))
    by reflexivity.
  assert (H4 : heap sample_world !! flt_device filterA
               = Some (ODevice deviceA)) by reflexivity.
  assert (H5 : hBufferA = nullptr
               \/ heap sample_world !! hBufferA = Some (OBuffer bufferA))
    by (right; reflexivity).
  destruct (set_image_all_or_nothing sample_maxDim true sample_world hFilterA
              filterA deviceA hBufferA bufferA 4096 "color" Format.Float
              16 16 0 0 0 H1 H2 H3 H4 H5) as ((Hr1 & _) & (Hr2 & _)).
  split; [exact Hr1 | exact Hr2].
Defined.

(** ** Buffers on a device that is not committed *)

(** On a device that is not committed, [oidnNewBufferWithStorage],
    [oidnNewSharedBufferFromFD] and [oidnNewSharedBufferFromWin32Handle]
    report [InvalidOperation] and return the null handle whatever their other
    arguments: the commit check comes before the checks of the external
    memory type and of the handle and the name.  Nothing is created: only
    the error slot of the device changes. *)
Theorem uncommitted_device_checked_first (OIDN_DNNL : bool) (w : World)
    (hDevice : Z) (d : DeviceObj) :
  hDevice <> nullptr -> heap w !! hDevice = Some (ODevice d) ->
  dev_committed d = false ->
  let refused :=
    (reported hDevice d Error.InvalidOperation not_committed_message
       (locked hDevice w),
     Return nullptr) in
  (forall byteSize storage,
     oidnNewBufferWithStorage OIDN_DNNL hDevice byteSize storage w = refused)
  /\ (forall fdType fd byteSize,
        oidnNewSharedBufferFromFD OIDN_DNNL hDevice fdType fd byteSize w
        = refused)
  /\ (forall handleType handle name byteSize,
        oidnNewSharedBufferFromWin32Handle OIDN_DNNL hDevice handleType
          handle name byteSize w = refused)
  /\ (forall h, h <> hDevice -> heap refused.1 !! h = heap w !! h)
  /\ brk refused.1 = brk w.
Proof.
  intros Hnn Hd Hc refused. unfold refused.
  split; [| split; [| split; [| split]]].
  - intros byteSize storage. unfold oidnNewBufferWithStorage.
    api_unfold. api_run. rewrite Hc. api_run. reflexivity.
  - intros fdType fd byteSize. unfold oidnNewSharedBufferFromFD.
    api_unfold. api_run. rewrite Hc. api_run. reflexivity.
  - intros handleType handle name byteSize.
    unfold oidnNewSharedBufferFromWin32Handle.
    api_unfold. api_run. rewrite Hc. api_run. reflexivity.
  - intros h Hh. unfold reported, locked. world_simpl.
    rewrite lookup_insert_ne by congruence. reflexivity.
  - reflexivity.
Qed.

Lemma uncommitted_device_checked_first_witness :
  (* device C is not committed and advertises no external memory type *)
  oidnNewSharedBufferFromWin32Handle true hDeviceC 1 7 9 4096 sample_world
  = (reported hDeviceC deviceC Error.InvalidOperation not_committed_message
       (locked hDeviceC sample_world),
     Return nullptr).
Proof.
  assert (H1 : hDeviceC <> nullptr) by discriminate.
  assert (H2 : heap sample_world !! hDeviceC = Some (ODevice deviceC))
    by reflexivity.
  assert (H3 : dev_committed deviceC = false) by reflexivity.
  exact (proj1 (proj2 (proj2 (uncommitted_device_checked_first true
                                sample_world hDeviceC deviceC H1 H2 H3)))
           1 7 9 4096).
Defined.

(** ** Retaining and releasing *)

Lemma set_refCount_same o c : refCount o = c -> set_refCount c o = o.
Proof. intros <-. destruct o as [[] | [] | []]; reflexivity. Qed.

Lemma set_refCount_twice o c c' :
  set_refCount c' (set_refCount c o) = set_refCount c' o.
Proof. destruct o; reflexivity. Qed.

Lemma refCount_set o c : refCount (set_refCount c o) = c.
Proof. destruct o; reflexivity. Qed.

Lemma size_count_round_trip c :
  is_size_t c -> size_add (size_add c 1) (-1) = c.
Proof.
  unfold is_size_t, size_add, size_wrap. intros Hc.
  rewrite Zplus_mod_idemp_l.
  replace (c + 1 + -1) with c by ring. apply Z.mod_small. exact Hc.
Qed.

(** Retaining a live object and releasing it again leaves the store as it
    was, with no lock taken, no wait and no error, as long as the release
    does not read zero from the decrement; with the count after the
    decrement as the reading, that is the case for every object that had a
    reference. *)
Theorem retain_then_release (OIDN_DNNL : bool) (decRefKeep_result : Z -> Z)
    (w : World) (obj : Z) (o : Object) :
  obj <> nullptr -> heap w !! obj = Some o -> is_size_t (refCount o) ->
  decRefKeep_result (size_add (refCount o) 1) <> 0 ->
  let release :=
    match o with
    | ODevice _ => oidnReleaseDevice OIDN_DNNL decRefKeep_result
    | OBuffer _ => oidnReleaseBuffer OIDN_DNNL decRefKeep_result
    | OFilter _ => oidnReleaseFilter OIDN_DNNL decRefKeep_result
    end in
  let retain :=
    match o with
    | ODevice _ => oidnRetainDevice OIDN_DNNL
    | OBuffer _ => oidnRetainBuffer OIDN_DNNL
    | OFilter _ => oidnRetainFilter OIDN_DNNL
    end in
  (retain obj >> release obj) w = (w, Return tt)
  /\ (1 <= refCount o -> new_count (size_add (refCount o) 1) <> 0).
Proof.
  intros Hnn Ho Hc Hread release retain. split.
  - assert (Hrel : forall (last_run : M unit),
              (retainObject OIDN_DNNL obj >>
               (let* last := release_test decRefKeep_result obj in
                if (last : bool) then last_run else ret tt)) w
              = (w, Return tt)).
    { intros last_run.
      unfold retainObject, release_test, decRefKeep, incRef.
      rewrite is_null_false by exact Hnn. cbn [negb].
      api_unfold. api_run. rewrite refCount_set.
      rewrite (proj2 (Z.eqb_neq _ _) Hread). world_simpl.
      rewrite set_refCount_twice, size_count_round_trip by exact Hc.
      rewrite (set_refCount_same o (refCount o) eq_refl).
      destruct w as [hp bk te tr]. cbn [heap] in Ho.
      unfold set_heap. cbn [heap brk threadError trace].
      rewrite insert_insert_eq, insert_id by exact Ho. reflexivity. }
    unfold retain, release. destruct o; apply Hrel.
  - intros Hpos. unfold new_count. rewrite size_count_round_trip by exact Hc.
    lia.
Qed.

Lemma retain_then_release_witness :
  (* the buffer on device A, whose count is one *)
  (oidnRetainBuffer true hBufferA >> oidnReleaseBuffer true new_count hBufferA)
    sample_world
  = (sample_world, Return tt).
Proof.
  assert (H1 : hBufferA <> nullptr) by discriminate.
  assert (H2 : heap sample_world !! hBufferA = Some (OBuffer bufferA))
    by reflexivity.
  assert (H3 : is_size_t (refCount (OBuffer bufferA)))
    by (split; [discriminate | reflexivity]).
  assert (H4 : new_count (size_add (refCount (OBuffer bufferA)) 1) <> 0)
    by discriminate.
  exact (proj1 (retain_then_release true new_count sample_world hBufferA
                  (OBuffer bufferA) H1 H2 H3 H4)).
Defined.

(** ** The reference an image holds on its buffer *)






